(** * smart-debounce: a shallow embedding of [src/debounce.ts]

    The module under study exports one function, [debounce(fn, delay,
    options)], whose closure owns a handful of mutable variables and talks
    to three host facilities: the timer queue ([setTimeout]/[clearTimeout]),
    the [window] keydown listener registry and promises.

    The embedding keeps the closure variables under their source names in
    one record together with the part of the host the closure can observe,
    and turns every source function into a state transformer.  The wrapped
    operation [fn] and the [condition] predicate are caller code: what they
    answer when they are invoked is supplied by the event that triggers the
    invocation.  Time is counted in whole milliseconds. *)

From Stdlib Require Import ZArith List Bool String Lia PeanoNat.
Import ListNotations.
Local Open Scope Z_scope.

(** ** Values, outcomes of caller code, completions *)

Inductive value : Type :=
| VUndefined
| VNull
| VBool (b : bool)
| VNum (z : Z)
| VStr (s : string)
| VError (name : string).

(** [new DebounceCancelledError()], identified by its [name] field. *)
Definition DebounceCancelledError : value := VError "DebounceCancelledError".

(** What [fn.apply(currentThis, currentArgs)] does: return a value that is
    not a thenable, throw, or return a thenable. *)
Inductive fn_outcome : Type :=
| FReturn (v : value)
| FThrow (e : value)
| FPromise.

(** What [condition()] does: [ConditionFn = () => boolean | Promise<boolean>],
    or it throws. *)
Inductive cond_outcome : Type :=
| CReturn (ok : bool)
| CThrow (e : value)
| CPromise.

(** How a promise settles. *)
Inductive settlement (A : Type) : Type :=
| Resolved (a : A)
| Rejected (e : value).
Arguments Resolved {A} a.
Arguments Rejected {A} e.

(** What a call of [debounced(...)] or [flush()] evaluates to.  Promises are
    named: a result promise by the number [ensurePendingPromise] gave it, a
    promise returned by [fn] by the index of that execution. *)
Inductive completion : Type :=
| Return (v : value)
| ReturnResultPromise (p : nat)
| ReturnOpPromise (k : nat)
| Throw (e : value).

(** ** Configuration: the constants of one [debounce(fn, delay, options)] *)

(** [maxWait] is a JS number or [null]. *)
Inductive num : Type :=
| Fin (z : Z)
| PosInfinity
| NegInfinity
| NaN.

Record config : Type := {
  delay : Z;                        (* validated: finite and non-negative *)
  cancelKey : option string;        (* options.cancelOn ?? null *)
  maxWait : option num;             (* options.maxWait ?? null *)
  condition : bool;                 (* options.condition ?? null is a function *)
  isDeclaredAsyncFunction : bool;   (* fn.constructor.name === "AsyncFunction" *)
  isBrowser : bool                  (* module constant, line 44 *)
}.

(** [maxWait != null && Number.isFinite(maxWait) && maxWait > 0] *)
Definition maxWaitEnabled (cfg : config) : option Z :=
  match maxWait cfg with
  | Some (Fin w) => if 0 <? w then Some w else None
  | _ => None
  end.

(** Truthiness of [cancelKey]: [null] and the empty string are falsy. *)
Definition truthyKey (k : option string) : bool :=
  match k with
  | Some EmptyString => false
  | Some _ => true
  | None => false
  end.

(** ** The instance state *)

Inductive timer_kind : Type :=
| KTryRun      (* setTimeout(tryRun, _) *)
| KMaxWait.    (* the arrow function of lines 196-204 *)

Record timer : Type := mkTimer {
  tid : nat;
  due : Z;
  kind : timer_kind
}.

(** One invocation of [fn]: when, with which [this], with which arguments
    ([None] is the [null] that [fn.apply] receives after the record was
    cleared). *)
Record exec : Type := mkExec {
  etime : Z;
  ethis : value;
  eargs : option (list value)
}.

Record state : Type := {
  (* host: clock and timer queue *)
  now : Z;
  nextId : nat;
  timers : list timer;
  (* host: keydown listeners of [window] *)
  nextHandler : nat;
  listeners : list nat;
  (* host: promises *)
  nextPromise : nat;
  awaiting : nat;                 (* tryRun activations suspended at [await maybeOk] *)
  inflight : list nat;            (* executions whose thenable carries lines 161-175 *)
  (* observations *)
  execs : list exec;
  settled : list (nat * settlement value);
  (* closure variables, lines 74-84 *)
  delayTimer : option nat;
  maxWaitTimer : option nat;
  lastArgs : option (list value);
  lastThis : value;
  hasPending : bool;
  pendingPromise : option nat;
  resolvePending : option nat;
  rejectPending : option nat;
  removeKeyListener : option nat
}.

Definition init : state :=
  {| now := 0; nextId := 1%nat; timers := [];
     nextHandler := 0%nat; listeners := [];
     nextPromise := 0%nat; awaiting := 0%nat; inflight := [];
     execs := []; settled := [];
     delayTimer := None; maxWaitTimer := None;
     lastArgs := None; lastThis := VNull;
     hasPending := false;
     pendingPromise := None; resolvePending := None; rejectPending := None;
     removeKeyListener := None |}.

(** Field updates. *)

Definition set_now (x : Z) (s : state) : state :=
  {| now := x; nextId := nextId s; timers := timers s;
     nextHandler := nextHandler s; listeners := listeners s;
     nextPromise := nextPromise s; awaiting := awaiting s;
     inflight := inflight s; execs := execs s; settled := settled s;
     delayTimer := delayTimer s; maxWaitTimer := maxWaitTimer s;
     lastArgs := lastArgs s; lastThis := lastThis s;
     hasPending := hasPending s; pendingPromise := pendingPromise s;
     resolvePending := resolvePending s; rejectPending := rejectPending s;
     removeKeyListener := removeKeyListener s |}.

Definition set_nextId (x : nat) (s : state) : state :=
  {| now := now s; nextId := x; timers := timers s;
     nextHandler := nextHandler s; listeners := listeners s;
     nextPromise := nextPromise s; awaiting := awaiting s;
     inflight := inflight s; execs := execs s; settled := settled s;
     delayTimer := delayTimer s; maxWaitTimer := maxWaitTimer s;
     lastArgs := lastArgs s; lastThis := lastThis s;
     hasPending := hasPending s; pendingPromise := pendingPromise s;
     resolvePending := resolvePending s; rejectPending := rejectPending s;
     removeKeyListener := removeKeyListener s |}.

Definition set_timers (x : list timer) (s : state) : state :=
  {| now := now s; nextId := nextId s; timers := x;
     nextHandler := nextHandler s; listeners := listeners s;
     nextPromise := nextPromise s; awaiting := awaiting s;
     inflight := inflight s; execs := execs s; settled := settled s;
     delayTimer := delayTimer s; maxWaitTimer := maxWaitTimer s;
     lastArgs := lastArgs s; lastThis := lastThis s;
     hasPending := hasPending s; pendingPromise := pendingPromise s;
     resolvePending := resolvePending s; rejectPending := rejectPending s;
     removeKeyListener := removeKeyListener s |}.

Definition set_nextHandler (x : nat) (s : state) : state :=
  {| now := now s; nextId := nextId s; timers := timers s; nextHandler := x;
     listeners := listeners s; nextPromise := nextPromise s;
     awaiting := awaiting s; inflight := inflight s; execs := execs s;
     settled := settled s; delayTimer := delayTimer s;
     maxWaitTimer := maxWaitTimer s; lastArgs := lastArgs s;
     lastThis := lastThis s; hasPending := hasPending s;
     pendingPromise := pendingPromise s; resolvePending := resolvePending s;
     rejectPending := rejectPending s;
     removeKeyListener := removeKeyListener s |}.

Definition set_listeners (x : list nat) (s : state) : state :=
  {| now := now s; nextId := nextId s; timers := timers s;
     nextHandler := nextHandler s; listeners := x;
     nextPromise := nextPromise s; awaiting := awaiting s;
     inflight := inflight s; execs := execs s; settled := settled s;
     delayTimer := delayTimer s; maxWaitTimer := maxWaitTimer s;
     lastArgs := lastArgs s; lastThis := lastThis s;
     hasPending := hasPending s; pendingPromise := pendingPromise s;
     resolvePending := resolvePending s; rejectPending := rejectPending s;
     removeKeyListener := removeKeyListener s |}.

Definition set_nextPromise (x : nat) (s : state) : state :=
  {| now := now s; nextId := nextId s; timers := timers s;
     nextHandler := nextHandler s; listeners := listeners s;
     nextPromise := x; awaiting := awaiting s; inflight := inflight s;
     execs := execs s; settled := settled s; delayTimer := delayTimer s;
     maxWaitTimer := maxWaitTimer s; lastArgs := lastArgs s;
     lastThis := lastThis s; hasPending := hasPending s;
     pendingPromise := pendingPromise s; resolvePending := resolvePending s;
     rejectPending := rejectPending s;
     removeKeyListener := removeKeyListener s |}.

Definition set_awaiting (x : nat) (s : state) : state :=
  {| now := now s; nextId := nextId s; timers := timers s;
     nextHandler := nextHandler s; listeners := listeners s;
     nextPromise := nextPromise s; awaiting := x; inflight := inflight s;
     execs := execs s; settled := settled s; delayTimer := delayTimer s;
     maxWaitTimer := maxWaitTimer s; lastArgs := lastArgs s;
     lastThis := lastThis s; hasPending := hasPending s;
     pendingPromise := pendingPromise s; resolvePending := resolvePending s;
     rejectPending := rejectPending s;
     removeKeyListener := removeKeyListener s |}.

Definition set_inflight (x : list nat) (s : state) : state :=
  {| now := now s; nextId := nextId s; timers := timers s;
     nextHandler := nextHandler s; listeners := listeners s;
     nextPromise := nextPromise s; awaiting := awaiting s; inflight := x;
     execs := execs s; settled := settled s; delayTimer := delayTimer s;
     maxWaitTimer := maxWaitTimer s; lastArgs := lastArgs s;
     lastThis := lastThis s; hasPending := hasPending s;
     pendingPromise := pendingPromise s; resolvePending := resolvePending s;
     rejectPending := rejectPending s;
     removeKeyListener := removeKeyListener s |}.

Definition set_execs (x : list exec) (s : state) : state :=
  {| now := now s; nextId := nextId s; timers := timers s;
     nextHandler := nextHandler s; listeners := listeners s;
     nextPromise := nextPromise s; awaiting := awaiting s;
     inflight := inflight s; execs := x; settled := settled s;
     delayTimer := delayTimer s; maxWaitTimer := maxWaitTimer s;
     lastArgs := lastArgs s; lastThis := lastThis s;
     hasPending := hasPending s; pendingPromise := pendingPromise s;
     resolvePending := resolvePending s; rejectPending := rejectPending s;
     removeKeyListener := removeKeyListener s |}.

Definition set_settled (x : list (nat * settlement value)) (s : state) : state :=
  {| now := now s; nextId := nextId s; timers := timers s;
     nextHandler := nextHandler s; listeners := listeners s;
     nextPromise := nextPromise s; awaiting := awaiting s;
     inflight := inflight s; execs := execs s; settled := x;
     delayTimer := delayTimer s; maxWaitTimer := maxWaitTimer s;
     lastArgs := lastArgs s; lastThis := lastThis s;
     hasPending := hasPending s; pendingPromise := pendingPromise s;
     resolvePending := resolvePending s; rejectPending := rejectPending s;
     removeKeyListener := removeKeyListener s |}.

Definition set_delayTimer (x : option nat) (s : state) : state :=
  {| now := now s; nextId := nextId s; timers := timers s;
     nextHandler := nextHandler s; listeners := listeners s;
     nextPromise := nextPromise s; awaiting := awaiting s;
     inflight := inflight s; execs := execs s; settled := settled s;
     delayTimer := x; maxWaitTimer := maxWaitTimer s; lastArgs := lastArgs s;
     lastThis := lastThis s; hasPending := hasPending s;
     pendingPromise := pendingPromise s; resolvePending := resolvePending s;
     rejectPending := rejectPending s;
     removeKeyListener := removeKeyListener s |}.

Definition set_maxWaitTimer (x : option nat) (s : state) : state :=
  {| now := now s; nextId := nextId s; timers := timers s;
     nextHandler := nextHandler s; listeners := listeners s;
     nextPromise := nextPromise s; awaiting := awaiting s;
     inflight := inflight s; execs := execs s; settled := settled s;
     delayTimer := delayTimer s; maxWaitTimer := x; lastArgs := lastArgs s;
     lastThis := lastThis s; hasPending := hasPending s;
     pendingPromise := pendingPromise s; resolvePending := resolvePending s;
     rejectPending := rejectPending s;
     removeKeyListener := removeKeyListener s |}.

Definition set_lastArgs (x : option (list value)) (s : state) : state :=
  {| now := now s; nextId := nextId s; timers := timers s;
     nextHandler := nextHandler s; listeners := listeners s;
     nextPromise := nextPromise s; awaiting := awaiting s;
     inflight := inflight s; execs := execs s; settled := settled s;
     delayTimer := delayTimer s; maxWaitTimer := maxWaitTimer s;
     lastArgs := x; lastThis := lastThis s; hasPending := hasPending s;
     pendingPromise := pendingPromise s; resolvePending := resolvePending s;
     rejectPending := rejectPending s;
     removeKeyListener := removeKeyListener s |}.

Definition set_lastThis (x : value) (s : state) : state :=
  {| now := now s; nextId := nextId s; timers := timers s;
     nextHandler := nextHandler s; listeners := listeners s;
     nextPromise := nextPromise s; awaiting := awaiting s;
     inflight := inflight s; execs := execs s; settled := settled s;
     delayTimer := delayTimer s; maxWaitTimer := maxWaitTimer s;
     lastArgs := lastArgs s; lastThis := x; hasPending := hasPending s;
     pendingPromise := pendingPromise s; resolvePending := resolvePending s;
     rejectPending := rejectPending s;
     removeKeyListener := removeKeyListener s |}.

Definition set_hasPending (x : bool) (s : state) : state :=
  {| now := now s; nextId := nextId s; timers := timers s;
     nextHandler := nextHandler s; listeners := listeners s;
     nextPromise := nextPromise s; awaiting := awaiting s;
     inflight := inflight s; execs := execs s; settled := settled s;
     delayTimer := delayTimer s; maxWaitTimer := maxWaitTimer s;
     lastArgs := lastArgs s; lastThis := lastThis s; hasPending := x;
     pendingPromise := pendingPromise s; resolvePending := resolvePending s;
     rejectPending := rejectPending s;
     removeKeyListener := removeKeyListener s |}.

Definition set_pendingPromise (x : option nat) (s : state) : state :=
  {| now := now s; nextId := nextId s; timers := timers s;
     nextHandler := nextHandler s; listeners := listeners s;
     nextPromise := nextPromise s; awaiting := awaiting s;
     inflight := inflight s; execs := execs s; settled := settled s;
     delayTimer := delayTimer s; maxWaitTimer := maxWaitTimer s;
     lastArgs := lastArgs s; lastThis := lastThis s;
     hasPending := hasPending s; pendingPromise := x;
     resolvePending := resolvePending s; rejectPending := rejectPending s;
     removeKeyListener := removeKeyListener s |}.

Definition set_resolvePending (x : option nat) (s : state) : state :=
  {| now := now s; nextId := nextId s; timers := timers s;
     nextHandler := nextHandler s; listeners := listeners s;
     nextPromise := nextPromise s; awaiting := awaiting s;
     inflight := inflight s; execs := execs s; settled := settled s;
     delayTimer := delayTimer s; maxWaitTimer := maxWaitTimer s;
     lastArgs := lastArgs s; lastThis := lastThis s;
     hasPending := hasPending s; pendingPromise := pendingPromise s;
     resolvePending := x; rejectPending := rejectPending s;
     removeKeyListener := removeKeyListener s |}.

Definition set_rejectPending (x : option nat) (s : state) : state :=
  {| now := now s; nextId := nextId s; timers := timers s;
     nextHandler := nextHandler s; listeners := listeners s;
     nextPromise := nextPromise s; awaiting := awaiting s;
     inflight := inflight s; execs := execs s; settled := settled s;
     delayTimer := delayTimer s; maxWaitTimer := maxWaitTimer s;
     lastArgs := lastArgs s; lastThis := lastThis s;
     hasPending := hasPending s; pendingPromise := pendingPromise s;
     resolvePending := resolvePending s; rejectPending := x;
     removeKeyListener := removeKeyListener s |}.

Definition set_removeKeyListener (x : option nat) (s : state) : state :=
  {| now := now s; nextId := nextId s; timers := timers s;
     nextHandler := nextHandler s; listeners := listeners s;
     nextPromise := nextPromise s; awaiting := awaiting s;
     inflight := inflight s; execs := execs s; settled := settled s;
     delayTimer := delayTimer s; maxWaitTimer := maxWaitTimer s;
     lastArgs := lastArgs s; lastThis := lastThis s;
     hasPending := hasPending s; pendingPromise := pendingPromise s;
     resolvePending := resolvePending s; rejectPending := rejectPending s;
     removeKeyListener := x |}.

(** ** Host primitives *)

(** [setTimeout(cb, d)]: a fresh handle, due [d] ms from now. *)
Definition setTimeout (k : timer_kind) (d : Z) (s : state) : nat * state :=
  let id := nextId s in
  (id, set_nextId (S id) (set_timers (timers s ++ [mkTimer id (now s + d) k]) s)).

(** [clearTimeout(h)]: drops the timer; nothing happens for a handle that
    already fired or was already cleared. *)
Definition clearTimeout (h : nat) (s : state) : state :=
  set_timers (filter (fun t => negb (Nat.eqb (tid t) h)) (timers s)) s.

Definition live (h : nat) (s : state) : bool :=
  existsb (fun t => Nat.eqb (tid t) h) (timers s).

(** ** The closure's functions, in source order *)

(** Resolving or rejecting through the stored callbacks; the three promise
    variables are nulled before the callback is invoked (lines 152-156,
    163-167, 170-174, 177-181, 184-188, 223-227). *)
Definition clearPromiseVars (s : state) : state :=
  set_rejectPending None (set_resolvePending None (set_pendingPromise None s)).

Definition rejectOutstanding (err : value) (s : state) : state :=
  let rej := rejectPending s in
  let s := clearPromiseVars s in
  match rej with
  | Some p => set_settled (settled s ++ [(p, Rejected err)]) s
  | None => s
  end.

Definition resolveOutstanding (val : value) (s : state) : state :=
  let res := resolvePending s in
  let s := clearPromiseVars s in
  match res with
  | Some p => set_settled (settled s ++ [(p, Resolved val)]) s
  | None => s
  end.

Definition cleanupKeyListener (s : state) : state :=
  match removeKeyListener s with
  | Some h =>
      set_removeKeyListener None
        (set_listeners (filter (fun h' => negb (Nat.eqb h' h)) (listeners s)) s)
  | None => s
  end.

Definition attachKeyListener (cfg : config) (s : state) : state :=
  if negb (isBrowser cfg) || negb (truthyKey (cancelKey cfg))
     || (match removeKeyListener s with Some _ => true | None => false end)
  then s
  else
    let h := nextHandler s in
    set_removeKeyListener (Some h)
      (set_listeners (listeners s ++ [h]) (set_nextHandler (S h) s)).

Definition clearDelayTimer (s : state) : state :=
  match delayTimer s with
  | Some h => set_delayTimer None (clearTimeout h s)
  | None => s
  end.

Definition clearMaxWaitTimer (s : state) : state :=
  match maxWaitTimer s with
  | Some h => set_maxWaitTimer None (clearTimeout h s)
  | None => s
  end.

Definition clearTimers (s : state) : state :=
  clearMaxWaitTimer (clearDelayTimer s).

Definition ensurePendingPromise (s : state) : nat * state :=
  match pendingPromise s with
  | Some p => (p, s)
  | None =>
      let p := nextPromise s in
      (p, set_rejectPending (Some p) (set_resolvePending (Some p)
            (set_pendingPromise (Some p) (set_nextPromise (S p) s))))
  end.

(** [tryRun], line 134: the condition answered false. *)
Definition tryRun_retry (cfg : config) (s : state) : state :=
  let (h, s) := setTimeout KTryRun (Z.max 10 (delay cfg)) s in
  set_delayTimer (Some h) s.

(** [tryRun], lines 139-182: the run itself. *)
Definition tryRun_run (f : fn_outcome) (s : state) : state :=
  let currentArgs := lastArgs s in
  let currentThis := lastThis s in
  let s := clearTimers s in
  let s := cleanupKeyListener s in
  let s := set_hasPending false s in
  let s := set_lastArgs None s in
  let s := set_lastThis VNull s in
  let k := List.length (execs s) in
  let s := set_execs (execs s ++ [mkExec (now s) currentThis currentArgs]) s in
  match f with
  | FThrow err => rejectOutstanding err s
  | FPromise => set_inflight (inflight s ++ [k]) s
  | FReturn v => resolveOutstanding v s
  end.

(** [tryRun], lines 133-137 onwards: [ok] is known. *)
Definition tryRun_checked (cfg : config) (ok : bool) (f : fn_outcome)
    (s : state) : state :=
  if ok then tryRun_run f s else tryRun_retry cfg s.

(** [tryRun] up to its first suspension point. *)
Definition tryRun (cfg : config) (c : cond_outcome) (f : fn_outcome)
    (s : state) : state :=
  if condition cfg then
    match c with
    | CReturn ok => tryRun_checked cfg ok f s
    | CThrow err => rejectOutstanding err s          (* lines 183-189 *)
    | CPromise => set_awaiting (S (awaiting s)) s    (* await maybeOk *)
    end
  else tryRun_run f s.

(** [tryRun] resumed when the awaited condition settles. *)
Definition tryRun_resume (cfg : config) (r : settlement bool) (f : fn_outcome)
    (s : state) : state :=
  let s := set_awaiting (pred (awaiting s)) s in
  match r with
  | Resolved ok => tryRun_checked cfg ok f s
  | Rejected err => rejectOutstanding err s
  end.

(** The callbacks of lines 161-175, run when the thenable returned by
    execution [k] settles. *)
Definition opSettled (r : settlement value) (s : state) : state :=
  match r with
  | Resolved val => resolveOutstanding val s
  | Rejected err => rejectOutstanding err s
  end.

(** The max-wait callback, lines 196-204. *)
Definition maxWaitFired (s : state) : state :=
  if hasPending s then
    let s := clearDelayTimer s in
    let (h, s) := setTimeout KTryRun 0 s in
    set_delayTimer (Some h) s
  else s.

Definition schedule (cfg : config) (s : state) : state :=
  let s :=
    if negb (hasPending s) then
      let s := set_hasPending true s in
      match maxWaitEnabled cfg with
      | Some w =>
          let (h, s) := setTimeout KMaxWait w s in
          set_maxWaitTimer (Some h) s
      | None => s
      end
    else s in
  let s := clearDelayTimer s in
  let (h, s) := setTimeout KTryRun (delay cfg) s in
  let s := set_delayTimer (Some h) s in
  attachKeyListener cfg s.

Definition cancel (s : state) : state :=
  if negb (hasPending s) then s
  else
    let s := clearTimers s in
    let s := cleanupKeyListener s in
    let s := set_hasPending false s in
    let s := set_lastArgs None s in
    let s := set_lastThis VNull s in
    rejectOutstanding DebounceCancelledError s.

(** [flush()].  [c] answers [condition()] and [f] answers [fn.apply] when
    the source reaches them. *)
Definition flush (cfg : config) (c : cond_outcome) (f : fn_outcome)
    (s : state) : completion * state :=
  match hasPending s, lastArgs s with
  | true, Some currentArgs =>
      let sync_path :=
        let s := clearTimers s in
        let s := cleanupKeyListener s in
        let s := set_hasPending false s in
        let currentThis := lastThis s in
        let s := set_lastArgs None s in
        let s := set_lastThis VNull s in
        let k := List.length (execs s) in
        let s :=
          set_execs (execs s ++ [mkExec (now s) currentThis (Some currentArgs)]) s in
        match f with
        | FReturn v => (Return v, s)
        | FThrow err => (Throw err, s)
        | FPromise => (ReturnOpPromise k, s)
        end in
      let deferred_path :=
        let s := clearDelayTimer s in
        let s := clearMaxWaitTimer s in
        if isDeclaredAsyncFunction cfg then
          let (p, s) := ensurePendingPromise s in
          let (_, s) := setTimeout KTryRun 0 s in
          (ReturnResultPromise p, s)
        else
          let (_, s) := setTimeout KTryRun 0 s in
          (Return VUndefined, s) in
      if isDeclaredAsyncFunction cfg then deferred_path
      else if negb (condition cfg) then sync_path
      else
        match c with
        | CReturn true => sync_path
        | CReturn false => deferred_path
        | CPromise => deferred_path       (* a promise is not [=== true] *)
        | CThrow err => (Throw err, s)
        end
  | _, _ => (Return VUndefined, s)
  end.

(** [debounced.apply(this, args)], lines 264-273. *)
Definition debounced (cfg : config) (this : value) (args : list value)
    (s : state) : completion * state :=
  let s := set_lastArgs (Some args) s in
  let s := set_lastThis this s in
  let s := schedule cfg s in
  if isDeclaredAsyncFunction cfg then
    let (p, s) := ensurePendingPromise s in
    (ReturnResultPromise p, s)
  else (Return VUndefined, s).

Definition pending (s : state) : bool := hasPending s.

(** The keydown handler of lines 98-102. *)
Definition handler (cfg : config) (key : string) (s : state) : state :=
  match cancelKey cfg with
  | Some k => if String.eqb key k then cancel s else s
  | None => s
  end.

(** [window] dispatches the event to the listeners registered when the
    dispatch starts. *)
Definition keydown (cfg : config) (key : string) (s : state) : state :=
  fold_left (fun st _ => handler cfg key st) (listeners s) s.

(** ** Events and the event loop *)

Inductive event : Type :=
| Call (this : value) (args : list value)
| Cancel
| Flush (c : cond_outcome) (f : fn_outcome)
| KeyDown (key : string)
| Wait (dt : Z)
| Fire (h : nat) (c : cond_outcome) (f : fn_outcome)
| CondSettle (r : settlement bool) (f : fn_outcome)
| OpSettle (k : nat) (r : settlement value).

Definition find_timer (h : nat) (s : state) : option timer :=
  find (fun t => Nat.eqb (tid t) h) (timers s).

(** Time may pass only up to the next due timer: timers fire on time. *)
Definition can_wait (dt : Z) (s : state) : bool :=
  (0 <=? dt) && forallb (fun t => now s + dt <=? due t) (timers s).

Fixpoint remove_first (k : nat) (l : list nat) : list nat :=
  match l with
  | [] => []
  | x :: l' => if Nat.eqb x k then l' else x :: remove_first k l'
  end.

(** One task of the event loop.  [None]: the event cannot happen in [s]. *)
Definition step (cfg : config) (ev : event) (s : state)
    : option (completion * state) :=
  match ev with
  | Call this args => Some (debounced cfg this args s)
  | Cancel => Some (Return VUndefined, cancel s)
  | Flush c f => Some (flush cfg c f s)
  | KeyDown key => Some (Return VUndefined, keydown cfg key s)
  | Wait dt =>
      if can_wait dt s then Some (Return VUndefined, set_now (now s + dt) s)
      else None
  | Fire h c f =>
      match find_timer h s with
      | Some t =>
          if due t <=? now s then
            let s := clearTimeout h s in
            Some (Return VUndefined,
                  match kind t with
                  | KTryRun => tryRun cfg c f s
                  | KMaxWait => maxWaitFired s
                  end)
          else None
      | None => None
      end
  | CondSettle r f =>
      match awaiting s with
      | O => None
      | S _ => Some (Return VUndefined, tryRun_resume cfg r f s)
      end
  | OpSettle k r =>
      if existsb (Nat.eqb k) (inflight s) then
        Some (Return VUndefined,
              opSettled r (set_inflight (remove_first k (inflight s)) s))
      else None
  end.

Fixpoint run (cfg : config) (evs : list event) (s : state) : option state :=
  match evs with
  | [] => Some s
  | ev :: evs' =>
      match step cfg ev s with
      | Some (_, s') => run cfg evs' s'
      | None => None
      end
  end.

(** The completions of the events of a run, in order. *)
Fixpoint outputs (cfg : config) (evs : list event) (s : state)
    : option (list completion) :=
  match evs with
  | [] => Some []
  | ev :: evs' =>
      match step cfg ev s with
      | Some (r, s') =>
          match outputs cfg evs' s' with
          | Some rs => Some (r :: rs)
          | None => None
          end
      | None => None
      end
  end.

Definition reachable (cfg : config) (s : state) : Prop :=
  exists evs, run cfg evs init = Some s.

(** ** Predicates used by the statements *)

Definition isSome {A : Type} (o : option A) : bool :=
  match o with Some _ => true | None => false end.

(** A timer the closure still holds the handle of. *)
Definition tracked (s : state) (t : timer) : Prop :=
  delayTimer s = Some (tid t) \/ maxWaitTimer s = Some (tid t).

(** What every reachable state satisfies. *)
Record wf (cfg : config) (s : state) : Prop := {
  wf_ids : forall t, In t (timers s) -> (tid t < nextId s)%nat;
  wf_delay : forall h, delayTimer s = Some h -> (h < nextId s)%nat;
  wf_maxWait : forall h, maxWaitTimer s = Some h -> (h < nextId s)%nat;
  wf_args : hasPending s = true -> isSome (lastArgs s) = true;
  wf_registry :
    listeners s =
    match removeKeyListener s with Some h => [h] | None => [] end;
  wf_attached :
    isSome (removeKeyListener s) = true ->
    isBrowser cfg = true /\ truthyKey (cancelKey cfg) = true;
  wf_subscribed :
    hasPending s = true -> isBrowser cfg = true ->
    truthyKey (cancelKey cfg) = true ->
    isSome (removeKeyListener s) = true;
  wf_sync :
    isDeclaredAsyncFunction cfg = false ->
    pendingPromise s = None /\ resolvePending s = None /\
    rejectPending s = None /\ settled s = [] /\ nextPromise s = 0%nat;
  wf_plain :
    isDeclaredAsyncFunction cfg = false -> condition cfg = false ->
    (hasPending s = false -> forall t, ~ In t (timers s)) /\
    (forall t, In t (timers s) -> tracked s t) /\
    awaiting s = 0%nat
}.

(** *** Bursts *)
Definition call : Type := (value * list value)%type.

Fixpoint burst_tail (rest : list (Z * call)) : list event :=
  match rest with
  | [] => []
  | (gap, c) :: rest' => Wait gap :: Call (fst c) (snd c) :: burst_tail rest'
  end.

Definition burst (first : call) (rest : list (Z * call)) : list event :=
  Call (fst first) (snd first) :: burst_tail rest.

Fixpoint span (rest : list (Z * call)) : Z :=
  match rest with
  | [] => 0
  | (gap, _) :: rest' => gap + span rest'
  end.

Fixpoint last_call (first : call) (rest : list (Z * call)) : call :=
  match rest with
  | [] => first
  | (_, c) :: rest' => last_call c rest'
  end.

Definition quiet (s : state) : Prop :=
  hasPending s = false /\ timers s = [].

Definition in_burst_due (cfg : config) (mwdue ddue : Z) (log : list exec)
    (c : call) (s : state) : Prop :=
  hasPending s = true /\ execs s = log /\
  lastArgs s = Some (snd c) /\ lastThis s = fst c /\
  exists h, delayTimer s = Some h /\ (h < nextId s)%nat /\
    match maxWaitEnabled cfg with
    | Some w =>
        exists m, maxWaitTimer s = Some m /\ (m < h)%nat /\
          timers s = [mkTimer m mwdue KMaxWait; mkTimer h ddue KTryRun]
    | None => timers s = [mkTimer h ddue KTryRun]
    end.

Definition in_burst (cfg : config) (mwdue : Z) (log : list exec) (c : call)
    (s : state) : Prop :=
  in_burst_due cfg mwdue (now s + delay cfg) log c s.

(** Does the handle in a closure variable name this timer? *)
Definition holds (o : option nat) (t : timer) : bool :=
  match o with
  | Some h => Nat.eqb (tid t) h
  | None => false
  end.

Definition mwdue_of (cfg : config) (s0 : state) : Z :=
  match maxWaitEnabled cfg with Some w => now s0 + w | None => 0 end.


(** ** Configurations and scenarios used as examples *)

Definition cfg_plain : config :=
  {| delay := 100; cancelKey := None; maxWait := None; condition := false;
     isDeclaredAsyncFunction := false; isBrowser := true |}.

(** What [flush()] hands back on its synchronous path. *)
Definition direct_result (f : fn_outcome) (k : nat) : completion :=
  match f with
  | FReturn v => Return v
  | FThrow err => Throw err
  | FPromise => ReturnOpPromise k
  end.

Definition cfg_node : config :=
  {| delay := 100; cancelKey := Some "Escape"%string; maxWait := None;
     condition := false; isDeclaredAsyncFunction := false;
     isBrowser := false |}.

Definition cfg_browser : config :=
  {| delay := 100; cancelKey := Some "Escape"%string; maxWait := None;
     condition := false; isDeclaredAsyncFunction := false;
     isBrowser := true |}.

Definition cfg_cond : config :=
  {| delay := 100; cancelKey := None; maxWait := None; condition := true;
     isDeclaredAsyncFunction := false; isBrowser := true |}.


Definition cfg_async : config :=
  {| delay := 100; cancelKey := None; maxWait := None; condition := false;
     isDeclaredAsyncFunction := true; isBrowser := true |}.

Definition cfg_async_cond : config :=
  {| delay := 100; cancelKey := None; maxWait := None; condition := true;
     isDeclaredAsyncFunction := true; isBrowser := true |}.

Definition cfg_maxwait : config :=
  {| delay := 1000; cancelKey := None; maxWait := Some (Fin 500);
     condition := false; isDeclaredAsyncFunction := false;
     isBrowser := true |}.

(** One call, the delay timer fires, the condition returns a promise. *)
Definition awaiting_condition : list event :=
  [Call VNull [VStr "a"]; Wait 100; Fire 1 CPromise (FReturn VUndefined)].

(** One call, then [flush()] takes its deferred path. *)
Definition flushed_deferred : list event :=
  [Call VNull [VStr "a"]; Flush (CReturn false) (FReturn VUndefined)].

(** Calls every 100 ms from t = 0; the max-wait callback fires at t = 500;
    the next call arrives before the 0 ms timer it armed. *)
Definition calls_until_deadline : list event :=
  [Call VNull [VStr "x"]; Wait 100; Call VNull [VStr "x"];
   Wait 100; Call VNull [VStr "x"]; Wait 100; Call VNull [VStr "x"];
   Wait 100; Call VNull [VStr "x"]; Wait 100;
   Fire 1 (CReturn true) (FReturn VUndefined);
   Call VNull [VStr "x"]].

Fixpoint calls_every_100 (n : nat) : list event :=
  match n with
  | O => []
  | S n' => Wait 100 :: Call VNull [VStr "x"] :: calls_every_100 n'
  end.

Definition starving (s : state) : Prop :=
  hasPending s = true /\ execs s = [] /\
  exists h, delayTimer s = Some h /\
    timers s = [mkTimer h (now s + 1000) KTryRun].

(** A second burst starts while the first burst's operation is in flight. *)
Definition overlapping_bursts : list event :=
  [Call VNull [VStr "a"]; Wait 100; Fire 1 (CReturn true) FPromise;
   Call VNull [VStr "b"];
   OpSettle 0 (Resolved (VStr "result of a"));
   Wait 100; Fire 2 (CReturn true) FPromise;
   OpSettle 1 (Resolved (VStr "result of b"))].

(** One call, the delay timer fires, the condition throws. *)
Definition condition_throws : list event :=
  [Call VNull [VStr "a"]; Wait 100;
   Fire 1 (CThrow (VError "boom")) (FReturn VUndefined)].


(** ** Construction (lines 56-72) *)

Inductive jsval : Type :=
| JUndefined
| JNull
| JBoolean (b : bool)
| JNumber (n : num)
| JString (s : string)
| JObject
| JFunction (async : bool).   (* [async]: its constructor is AsyncFunction *)

Record DebounceOptions : Type := {
  cancelOn : option string;
  maxWaitOption : option num;
  conditionOption : bool          (* a function was given *)
}.

Definition not_a_function : string := "Expected a function to debounce".
Definition bad_delay : string :=
  "Expected 'delay' to be a non-negative finite number".

(** [debounce(fn, delay, options)] up to the closure it returns: the
    [TypeError] message, or the constants of the instance. *)
Definition debounce (browser : bool) (fn delayArg : jsval)
    (options : DebounceOptions) : string + config :=
  match fn with
  | JFunction async =>
      match delayArg with
      | JNumber (Fin d) =>
          if d <? 0 then inl bad_delay
          else inr {| delay := d;
                      cancelKey := cancelOn options;
                      maxWait := maxWaitOption options;
                      condition := conditionOption options;
                      isDeclaredAsyncFunction := async;
                      isBrowser := browser |}
      | _ => inl bad_delay
      end
  | _ => inl not_a_function
  end.


(** ** Views and invariants used by the further properties *)

Definition pview (s : state) :=
  (pendingPromise s, resolvePending s, rejectPending s, nextPromise s,
   settled s).

Definition promise_inv (s : state) : Prop :=
  resolvePending s = pendingPromise s /\
  rejectPending s = pendingPromise s /\
  (forall p, pendingPromise s = Some p ->
     (p < nextPromise s)%nat /\ ~ In p (map fst (settled s))) /\
  (forall p, In p (map fst (settled s)) -> (p < nextPromise s)%nat) /\
  NoDup (map fst (settled s)).

(** How one task may change the promise variables. *)
Definition promise_step (s s' : state) : Prop :=
  pview s' = pview s \/
  (exists err, pview s' = pview (rejectOutstanding err s)) \/
  (exists val, pview s' = pview (resolveOutstanding val s)) \/
  pview s' = pview (snd (ensurePendingPromise s)).


(** The invocation record, the clock and the logs. *)
Definition uview (s : state) :=
  (lastArgs s, lastThis s, execs s, now s, awaiting s, inflight s).

(** The key listener. *)
Definition lview (s : state) :=
  (removeKeyListener s, listeners s, nextHandler s).

(** The timers. *)
Definition tview (s : state) :=
  (timers s, delayTimer s, maxWaitTimer s, nextId s).


Definition without (o : option nat) (l : list timer) : list timer :=
  filter (fun t => negb (holds o t)) l.


(** The block shared by the run, [cancel()] and the synchronous [flush()]. *)
Definition detached (s : state) : state :=
  set_lastThis VNull (set_lastArgs None (set_hasPending false
    (cleanupKeyListener (clearTimers s)))).

(** Everything but the promise variables and the settlement log. *)
Definition nview (s : state) :=
  (hasPending s, lastArgs s, lastThis s, execs s, now s, awaiting s,
   inflight s, tview s, lview s).


Definition listener_step (s s' : state) : Prop :=
  (hasPending s' = hasPending s /\
   removeKeyListener s' = removeKeyListener s) \/
  hasPending s' = true \/
  removeKeyListener s' = None.


Definition delay_timer_live (s : state) : Prop :=
  exists h, delayTimer s = Some h /\ live h s = true.


(** [k] attempts that find the condition false, then one that finds it
    true: the first timer is [h], the ones [tryRun] arms are numbered from
    [next]. *)
Fixpoint poll_events (k : nat) (h next : nat) (first_wait interval : Z)
    (f : fn_outcome) : list event :=
  match k with
  | O => [Wait first_wait; Fire h (CReturn true) f]
  | S k' =>
      Wait first_wait :: Fire h (CReturn false) f ::
      poll_events k' next (S next) interval interval f
  end.


(** ** Further configurations and scenarios *)

Definition cfg_async_cond_maxwait : config :=
  {| delay := 100; cancelKey := None; maxWait := Some (Fin 150);
     condition := true; isDeclaredAsyncFunction := true; isBrowser := true |}.

(** One call with a max-wait bound (timer 1 is the max-wait timer, timer 2
    the delay timer); the delay timer fires and the condition throws. *)
Definition condition_throws_with_deadline : list event :=
  [Call VNull [VStr "a"]; Wait 100;
   Fire 2 (CThrow (VError "boom")) (FReturn VUndefined)].

(** The max-wait callback fires 50 ms later; the attempt it arms finds the
    condition true. *)
Definition deadline_after_error : list event :=
  [Wait 50; Fire 1 (CReturn true) (FReturn VUndefined);
   Fire 3 (CReturn true) (FReturn (VStr "r"))].


(** * Properties *)

(** ** The invariant of reachable states *)

Lemma in_filter_neq (h : nat) (l : list timer) (t : timer) :
  In t (filter (fun t => negb (Nat.eqb (tid t) h)) l) <->
  In t l /\ tid t <> h.
Proof.
  rewrite filter_In, negb_true_iff, Nat.eqb_neq. tauto.
Qed.

Ltac break_match :=
  match goal with
  | |- context [match ?x with _ => _ end] => destruct x eqn:?
  | H : context [match ?x with _ => _ end] |- _ => destruct x eqn:?
  end.

Ltac wf_crush :=
  repeat match goal with
  | H : _ /\ _ |- _ => destruct H
  | H : In _ (_ ++ _) |- _ => apply in_app_or in H; destruct H
  | H : In _ (filter _ _) |- _ => apply in_filter_neq in H; destruct H
  | H : In _ [_] |- _ => destruct H as [H | []]; subst
  | H : In _ [] |- _ => destruct H
  | H : Some _ = Some _ |- _ => inversion H; subst; clear H
  | H : ?x = ?x -> _ |- _ => specialize (H eq_refl)
  | H : ?A -> _, H' : ?A |- _ => specialize (H H')
  end.

Lemma init_wf (cfg : config) : wf cfg init.
Proof.
  constructor; simpl; try tauto; try discriminate.


Qed.

Ltac unfold_model :=
  unfold debounced, flush, cancel, schedule, maxWaitFired, opSettled,
    tryRun_resume, tryRun, tryRun_checked, tryRun_run, tryRun_retry,
    ensurePendingPromise, clearTimers, clearMaxWaitTimer, clearDelayTimer,
    attachKeyListener, cleanupKeyListener, resolveOutstanding,
    rejectOutstanding, clearPromiseVars, clearTimeout, setTimeout, tracked,
    isSome in *.

Ltac open_state s :=
  destruct s as [nw nid tms nh ls np aw inf ex st dT mT lA lT hP pP rsP rjP rKL].

Ltac use_in :=
  repeat match goal with
  | H : forall t, In t ?l -> _, H' : In ?x ?l |- _ =>
      let T := type of (H x H') in
      lazymatch goal with
      | _ : T |- _ => fail
      | _ => pose proof (H x H')
      end
  | H : forall h, Some ?a = Some h -> _ |- _ => specialize (H a eq_refl)
  end.

Ltac wf_fin :=
  simpl in *; unfold tracked, isSome, not in *; simpl in *; intros;
  wf_crush; use_in; wf_crush; subst; simpl in *;
  rewrite ?Nat.eqb_refl in *; simpl in *;
  try solve [ congruence | tauto | lia | discriminate
            | intuition (try congruence; try lia; try discriminate) ].

Ltac wf_solve := constructor; wf_fin; repeat split; wf_fin.

Lemma cancel_wf (cfg : config) (s : state) : wf cfg s -> wf cfg (cancel s).
Proof.
  open_state s. unfold_model. simpl.
  destruct hP, dT, mT, rKL, rjP; simpl; intros [? ? ? ? ? ? ? ? ?]; simpl in *;
  wf_solve.
Qed.

Lemma debounced_wf (cfg : config) (this : value) (args : list value) (s : state) :
  wf cfg s -> wf cfg (snd (debounced cfg this args s)).
Proof.
  open_state s. unfold_model. simpl.
  destruct (isDeclaredAsyncFunction cfg) eqn:Ea, (maxWaitEnabled cfg) eqn:Em,
    (isBrowser cfg) eqn:Eb, (truthyKey (cancelKey cfg)) eqn:Ek;
  destruct hP, dT, rKL, pP; simpl; intros [? ? ? ? ? ? ? ? ?]; simpl in *;
  wf_solve.
Qed.

Lemma clearTimeout_wf (cfg : config) (h : nat) (s : state) :
  wf cfg s -> wf cfg (clearTimeout h s).
Proof.
  open_state s. unfold_model. simpl.
  intros [? ? ? ? ? ? ? ? ?]; simpl in *; wf_solve.
Qed.

Lemma wait_wf (cfg : config) (t : Z) (s : state) :
  wf cfg s -> wf cfg (set_now t s).
Proof.
  open_state s. intros [? ? ? ? ? ? ? ? ?]; simpl in *; wf_solve.
Qed.

Lemma maxWaitFired_wf (cfg : config) (s : state) :
  wf cfg s -> wf cfg (maxWaitFired s).
Proof.
  open_state s. unfold_model. simpl.
  destruct hP, dT; simpl; intros [? ? ? ? ? ? ? ? ?]; simpl in *; wf_solve.
Qed.

Lemma tryRun_run_wf (cfg : config) (f : fn_outcome) (s : state) :
  wf cfg s -> wf cfg (tryRun_run f s).
Proof.
  open_state s. unfold_model. simpl.
  destruct f, dT, mT, rKL, rsP, rjP; simpl;
    intros [? ? ? ? ? ? ? ? ?]; simpl in *; wf_solve.
Qed.

Lemma rejectOutstanding_wf (cfg : config) (e : value) (s : state) :
  wf cfg s -> wf cfg (rejectOutstanding e s).
Proof.
  open_state s. unfold_model. simpl.
  destruct rjP; simpl; intros [? ? ? ? ? ? ? ? ?]; simpl in *; wf_solve.
Qed.

Lemma resolveOutstanding_wf (cfg : config) (v : value) (s : state) :
  wf cfg s -> wf cfg (resolveOutstanding v s).
Proof.
  open_state s. unfold_model. simpl.
  destruct rsP; simpl; intros [? ? ? ? ? ? ? ? ?]; simpl in *; wf_solve.
Qed.

Lemma tryRun_retry_wf (cfg : config) (s : state) :
  condition cfg = true -> wf cfg s -> wf cfg (tryRun_retry cfg s).
Proof.
  open_state s. unfold_model. simpl.
  intros Hc [? ? ? ? ? ? ? ? ?]; simpl in *; wf_solve.
Qed.

Lemma tryRun_wf (cfg : config) (c : cond_outcome) (f : fn_outcome) (s : state) :
  wf cfg s -> wf cfg (tryRun cfg c f s).
Proof.
  intros H. unfold tryRun, tryRun_checked.
  destruct (condition cfg) eqn:Hc.
  - destruct c as [[] | e | ].
    + now apply tryRun_run_wf.
    + now apply tryRun_retry_wf.
    + now apply rejectOutstanding_wf.
    + revert H. open_state s.
      intros [? ? ? ? ? ? ? ? ?]; simpl in *; wf_solve.
  - now apply tryRun_run_wf.
Qed.

Lemma tryRun_resume_wf (cfg : config) (r : settlement bool) (f : fn_outcome)
    (s : state) :
  awaiting s <> 0%nat -> wf cfg s -> wf cfg (tryRun_resume cfg r f s).
Proof.
  intros Ha H.
  assert (Hc : condition cfg = true \/ isDeclaredAsyncFunction cfg = true).
  { destruct (condition cfg) eqn:Hc; [now left |].
    destruct (isDeclaredAsyncFunction cfg) eqn:Hd; [now right |].
    destruct (wf_plain _ _ H Hd Hc) as (_ & _ & H0). contradiction. }
  assert (H' : wf cfg (set_awaiting (pred (awaiting s)) s)).
  { revert H. clear Ha. open_state s.
    intros [? ? ? ? ? ? ? ? ?]; simpl in *; wf_solve. }
  unfold tryRun_resume, tryRun_checked.
  destruct r as [[] | e].
  - now apply tryRun_run_wf.
  - revert H'. generalize (set_awaiting (pred (awaiting s)) s). clear H Ha.
    intros s0. open_state s0. unfold_model. simpl.
    intros [? ? ? ? ? ? ? ? ?]; simpl in *; wf_solve.
  - now apply rejectOutstanding_wf.
Qed.

Lemma opSettled_wf (cfg : config) (l : list nat) (r : settlement value)
    (s : state) :
  wf cfg s -> wf cfg (opSettled r (set_inflight l s)).
Proof.
  intros H.
  assert (H' : wf cfg (set_inflight l s)).
  { revert H. open_state s.
    intros [? ? ? ? ? ? ? ? ?]; simpl in *; wf_solve. }
  destruct r; simpl.
  - now apply resolveOutstanding_wf.
  - now apply rejectOutstanding_wf.
Qed.

Lemma keydown_wf (cfg : config) (key : string) (s : state) :
  wf cfg s -> wf cfg (keydown cfg key s).
Proof.
  unfold keydown. generalize (listeners s) as l.
  intros l; revert s. induction l as [| x l IH]; intros s H; simpl; [exact H |].
  apply IH. unfold handler.
  destruct (cancelKey cfg); [| exact H].
  destruct (String.eqb key s0); [now apply cancel_wf | exact H].
Qed.

Lemma flush_wf (cfg : config) (c : cond_outcome) (f : fn_outcome) (s : state) :
  wf cfg s -> wf cfg (snd (flush cfg c f s)).
Proof.
  open_state s. unfold_model. simpl.
  destruct hP; [| intros H; exact H].
  destruct lA; [| intros H; exact H].
  destruct (isDeclaredAsyncFunction cfg) eqn:Ea, (condition cfg) eqn:Ec;
    [ | | destruct c as [[] | e | ] | ];
    destruct dT, mT, rKL, pP; try destruct f; simpl;
    intros [? ? ? ? ? ? ? ? ?]; simpl in *; wf_solve.
Qed.

Lemma step_wf (cfg : config) (ev : event) (s s' : state) (r : completion) :
  wf cfg s -> step cfg ev s = Some (r, s') -> wf cfg s'.
Proof.
  intros H. destruct ev; simpl.
  - intros E; injection E as E.
    pose proof (debounced_wf cfg this args s H) as W. now rewrite E in W.
  - intros E; inversion E; now apply cancel_wf.
  - intros E; injection E as E.
    pose proof (flush_wf cfg c f s H) as W. now rewrite E in W.
  - intros E; inversion E; now apply keydown_wf.
  - destruct (can_wait dt s); [| discriminate].
    intros E; inversion E; now apply wait_wf.
  - destruct (find_timer h s) as [t |]; [| discriminate].
    destruct (due t <=? now s); [| discriminate].
    intros E; inversion E. destruct (kind t).
    + apply tryRun_wf, clearTimeout_wf, H.
    + apply maxWaitFired_wf, clearTimeout_wf, H.
  - destruct (awaiting s) eqn:Ha; [discriminate |].
    intros E; inversion E. apply tryRun_resume_wf; [congruence | exact H].
  - destruct (existsb (Nat.eqb k) (inflight s)); [| discriminate].
    intros E; inversion E. now apply opSettled_wf.
Qed.

Lemma run_wf (cfg : config) (evs : list event) (s s' : state) :
  wf cfg s -> run cfg evs s = Some s' -> wf cfg s'.
Proof.
  revert s. induction evs as [| ev evs IH]; intros s H; simpl.
  - intros E; inversion E; subst; exact H.
  - destruct (step cfg ev s) as [[r s1] |] eqn:E; [| discriminate].
    apply IH. eapply step_wf; eauto.
Qed.

Lemma reachable_wf (cfg : config) (s : state) : reachable cfg s -> wf cfg s.
Proof.
  intros [evs H]. eapply run_wf; [apply init_wf | exact H].
Qed.

(** ** Bursts *)

Lemma eqb_lt_false (a b : nat) : (a < b)%nat -> Nat.eqb b a = false.
Proof. intros H. apply Nat.eqb_neq. lia. Qed.

Lemma eqb_gt_false (a b : nat) : (a < b)%nat -> Nat.eqb a b = false.
Proof. intros H. apply Nat.eqb_neq. lia. Qed.

Ltac burst_conj := repeat (split; [reflexivity |]).

Ltac burst_fin_mw h m :=
  simpl; (split; [| reflexivity]); simpl; once burst_conj;
  exists h; (split; [reflexivity |]); (split; [lia |]);
  exists m; (split; [reflexivity |]); (split; [lia |]); reflexivity.

Ltac burst_fin_plain h :=
  simpl; (split; [| reflexivity]); simpl; once burst_conj;
  exists h; (split; [reflexivity |]); (split; [lia |]); reflexivity.

Lemma first_call_in_burst (cfg : config) (c : call) (s0 : state) :
  wf cfg s0 -> quiet s0 ->
  let s1 := snd (debounced cfg (fst c) (snd c) s0) in
  in_burst cfg (mwdue_of cfg s0) (execs s0) c s1 /\ now s1 = now s0.
Proof.
  intros W [Hp Ht]. pose proof (wf_delay _ _ W) as Hd. revert Hp Ht Hd. clear W.
  open_state s0.
  cbn [hasPending execs lastArgs lastThis delayTimer maxWaitTimer nextId
       timers now].
  intros -> -> Hd.
  assert (Hd' : forall d, dT = Some d -> Nat.eqb nid d = false).
  { intros d E. apply eqb_lt_false, Hd, E. }
  clear Hd.
  unfold in_burst, in_burst_due, mwdue_of, debounced, schedule,
    clearDelayTimer, attachKeyListener, ensurePendingPromise.
  destruct (maxWaitEnabled cfg) as [w |] eqn:Em;
    destruct (isDeclaredAsyncFunction cfg), (isBrowser cfg),
      (truthyKey (cancelKey cfg)), rKL, pP;
    destruct dT as [d |]; simpl;
    try (rewrite (Hd' d eq_refl); simpl);
    first [ burst_fin_mw (S nid) nid | burst_fin_plain nid ].
Qed.

Lemma wait_in_burst (cfg : config) (mwdue ddue t : Z) (log : list exec)
    (c : call) (s : state) :
  in_burst_due cfg mwdue ddue log c s ->
  in_burst_due cfg mwdue ddue log c (set_now t s).
Proof. intros H. exact H. Qed.

Lemma call_in_burst (cfg : config) (mwdue ddue : Z) (log : list exec)
    (c c' : call) (s : state) :
  in_burst_due cfg mwdue ddue log c s ->
  let s1 := snd (debounced cfg (fst c') (snd c') s) in
  in_burst cfg mwdue log c' s1 /\ now s1 = now s.
Proof.
  intros (Hp & He & Ha & Ht & h & Hd & Hh & Hq).
  revert Hp He Ha Ht Hd Hh Hq. open_state s.
  cbn [hasPending execs lastArgs lastThis delayTimer maxWaitTimer nextId
       timers now].
  intros -> <- -> -> -> Hh Hq.
  unfold in_burst, in_burst_due, debounced, schedule, clearDelayTimer,
    attachKeyListener, ensurePendingPromise.
  destruct (maxWaitEnabled cfg) as [w |] eqn:Em.
  - destruct Hq as (m & -> & Hmh & ->).
    pose proof (eqb_gt_false m h Hmh) as Hne.
    destruct (isDeclaredAsyncFunction cfg), (isBrowser cfg),
      (truthyKey (cancelKey cfg)), rKL, pP; simpl;
      rewrite Nat.eqb_refl, Hne; burst_fin_mw nid m.
  - subst tms.
    destruct (isDeclaredAsyncFunction cfg), (isBrowser cfg),
      (truthyKey (cancelKey cfg)), rKL, pP; simpl;
      rewrite Nat.eqb_refl; burst_fin_plain nid.
Qed.

Lemma run_call (cfg : config) (this : value) (args : list value)
    (evs : list event) (s : state) :
  run cfg (Call this args :: evs) s =
  run cfg evs (snd (debounced cfg this args s)).
Proof. simpl. destruct (debounced cfg this args s); reflexivity. Qed.

Lemma run_wait (cfg : config) (dt : Z) (evs : list event) (s : state) :
  can_wait dt s = true ->
  run cfg (Wait dt :: evs) s = run cfg evs (set_now (now s + dt) s).
Proof. intros H. simpl. rewrite H. reflexivity. Qed.

Lemma run_app (cfg : config) (evs1 evs2 : list event) (s : state) :
  run cfg (evs1 ++ evs2) s =
  match run cfg evs1 s with
  | Some s' => run cfg evs2 s'
  | None => None
  end.
Proof.
  revert s. induction evs1 as [| ev evs1 IH]; intros s; simpl; [reflexivity |].
  destruct (step cfg ev s) as [[r s'] |]; [apply IH | reflexivity].
Qed.

Lemma in_burst_can_wait (cfg : config) (mwdue : Z) (log : list exec)
    (c : call) (dt : Z) (s : state) :
  in_burst cfg mwdue log c s ->
  0 <= dt <= delay cfg ->
  (maxWaitEnabled cfg <> None -> now s + dt <= mwdue) ->
  can_wait dt s = true.
Proof.
  intros (Hp & He & Ha & Ht & h & Hd & Hh & Hq) Hg Hm.
  unfold can_wait. apply andb_true_iff. split; [apply Z.leb_le; lia |].
  destruct (maxWaitEnabled cfg) as [w |] eqn:Em.
  - destruct Hq as (m & _ & _ & ->).
    assert (now s + dt <= mwdue) by (apply Hm; discriminate).
    cbn [forallb due]. rewrite !andb_true_iff, !Z.leb_le. lia.
  - rewrite Hq. cbn [forallb due]. rewrite andb_true_iff, Z.leb_le. lia.
Qed.

Lemma next_call_in_burst (cfg : config) (mwdue : Z) (log : list exec)
    (c c' : call) (gap : Z) (s : state) :
  in_burst cfg mwdue log c s ->
  0 <= gap < delay cfg ->
  (maxWaitEnabled cfg <> None -> now s + gap <= mwdue) ->
  exists s', run cfg [Wait gap; Call (fst c') (snd c')] s = Some s' /\
    in_burst cfg mwdue log c' s' /\ now s' = now s + gap.
Proof.
  intros Hb Hg Hm.
  assert (Hw : can_wait gap s = true).
  { eapply in_burst_can_wait; [exact Hb | lia | exact Hm]. }
  exists (snd (debounced cfg (fst c') (snd c') (set_now (now s + gap) s))).
  split.
  - rewrite run_wait, run_call by exact Hw. reflexivity.
  - apply (call_in_burst cfg mwdue (now s + delay cfg) log c c').
    apply wait_in_burst. exact Hb.
Qed.

Lemma burst_tail_in_burst (cfg : config) (mwdue : Z) (log : list exec)
    (rest : list (Z * call)) :
  forall (c : call) (s : state),
  in_burst cfg mwdue log c s ->
  Forall (fun gc => 0 <= fst gc < delay cfg) rest ->
  (maxWaitEnabled cfg <> None -> now s + span rest <= mwdue) ->
  exists s', run cfg (burst_tail rest) s = Some s' /\
    in_burst cfg mwdue log (last_call c rest) s' /\
    now s' = now s + span rest.
Proof.
  induction rest as [| [gap c'] rest IH]; intros c s Hb Hg Hm;
    cbn [burst_tail span last_call] in *.
  - exists s. split; [reflexivity | split; [exact Hb | lia]].
  - inversion Hg as [| x l Hgap Hrest]; subst. simpl in Hgap.
    assert (Hs : 0 <= span rest).
    { clear -Hrest. induction rest as [| [g c0] r IHr]; simpl; [lia |].
      inversion Hrest; subst; simpl in *. specialize (IHr H2). lia. }
    destruct (next_call_in_burst cfg mwdue log c c' gap s Hb Hgap)
      as (s1 & Hrun & Hb1 & Hn1).
    { intros E. specialize (Hm E). lia. }
    destruct (IH c' s1 Hb1 Hrest) as (s2 & Hrun2 & Hb2 & Hn2).
    { intros E. specialize (Hm E). lia. }
    exists s2.
    change (Wait gap :: Call (fst c') (snd c') :: burst_tail rest)
      with ([Wait gap; Call (fst c') (snd c')] ++ burst_tail rest).
    rewrite run_app, Hrun.
    split; [exact Hrun2 | split; [exact Hb2 | lia]].
Qed.

Lemma run_fire (cfg : config) (h : nat) (c : cond_outcome) (f : fn_outcome)
    (evs : list event) (s : state) (t : timer) :
  find_timer h s = Some t -> (due t <=? now s) = true ->
  run cfg (Fire h c f :: evs) s =
  run cfg evs
    (match kind t with
     | KTryRun => tryRun cfg c f (clearTimeout h s)
     | KMaxWait => maxWaitFired (clearTimeout h s)
     end).
Proof. intros H1 H2. simpl. rewrite H1, H2. reflexivity. Qed.

Lemma tryRun_passes (cfg : config) (c : cond_outcome) (f : fn_outcome)
    (s : state) :
  (condition cfg = true -> c = CReturn true) ->
  tryRun cfg c f s = tryRun_run f s.
Proof.
  intros H. unfold tryRun. destruct (condition cfg); [| reflexivity].
  rewrite (H eq_refl). reflexivity.
Qed.

Lemma filter_true {A : Type} (l : list A) : filter (fun _ => true) l = l.
Proof. induction l as [| x l IH]; simpl; [reflexivity | now rewrite IH]. Qed.

Lemma timers_clearTimers (s : state) :
  timers (clearTimers s) =
  filter (fun t => negb (holds (maxWaitTimer s) t))
    (filter (fun t => negb (holds (delayTimer s) t)) (timers s)).
Proof.
  open_state s. destruct dT, mT; unfold clearTimers, clearMaxWaitTimer,
    clearDelayTimer, clearTimeout, holds; simpl; rewrite ?filter_true;
    reflexivity.
Qed.

(** What a run changes, whatever the operation does. *)
Lemma tryRun_run_effect (f : fn_outcome) (s : state) :
  let s' := tryRun_run f s in
  execs s' = execs s ++ [mkExec (now s) (lastThis s) (lastArgs s)] /\
  hasPending s' = false /\ lastArgs s' = None /\ lastThis s' = VNull /\
  delayTimer s' = None /\ maxWaitTimer s' = None /\
  removeKeyListener s' = None /\
  timers s' = timers (clearTimers s) /\
  listeners s' = listeners (cleanupKeyListener s) /\
  now s' = now s /\ awaiting s' = awaiting s /\ nextId s' = nextId s.
Proof.
  open_state s. destruct f, dT, mT, rKL, rsP, rjP; unfold tryRun_run,
    clearTimers, clearMaxWaitTimer, clearDelayTimer, clearTimeout,
    cleanupKeyListener, resolveOutstanding, rejectOutstanding,
    clearPromiseVars; simpl; repeat split; reflexivity.
Qed.


(** ** The claims *)



(** ** flush *)

Lemma flush_not_pending (cfg : config) (c : cond_outcome) (f : fn_outcome)
    (s : state) :
  hasPending s = false -> flush cfg c f s = (Return VUndefined, s).
Proof. intros H. unfold flush. rewrite H. reflexivity. Qed.

Lemma flush_sync_effect (cfg : config) (c : cond_outcome) (f : fn_outcome)
    (s : state) (args : list value) :
  hasPending s = true -> lastArgs s = Some args ->
  isDeclaredAsyncFunction cfg = false ->
  (condition cfg = false \/ c = CReturn true) ->
  fst (flush cfg c f s) = direct_result f (List.length (execs s)) /\
  let s' := snd (flush cfg c f s) in
  execs s' = execs s ++ [mkExec (now s) (lastThis s) (Some args)] /\
  hasPending s' = false /\ lastArgs s' = None /\
  delayTimer s' = None /\ maxWaitTimer s' = None /\
  removeKeyListener s' = None /\
  timers s' = timers (clearTimers s) /\
  listeners s' = listeners (cleanupKeyListener s) /\
  settled s' = settled s /\ now s' = now s.
Proof.
  intros Hp Ha Hs Hc. revert Hp Ha. open_state s.
  cbn [hasPending lastArgs]. intros -> ->.
  unfold flush. cbn [hasPending lastArgs]. rewrite Hs.
  assert (E : (if negb (condition cfg) then true
               else match c with CReturn true => true | _ => false end)
              = true).
  { destruct Hc as [-> | ->]; [reflexivity |].
    destruct (condition cfg); reflexivity. }
  destruct (condition cfg); [destruct c as [[] | |]; try discriminate E |];
    destruct f, dT, mT, rKL; unfold clearTimers, clearMaxWaitTimer,
      clearDelayTimer, clearTimeout, cleanupKeyListener, direct_result;
    simpl; repeat split; reflexivity.
Qed.

Lemma not_in_nil {A : Type} (l : list A) : (forall x, ~ In x l) -> l = [].
Proof.
  destruct l as [| x l]; [reflexivity |].
  intros H. exfalso. apply (H x). now left.
Qed.

Lemma in_clearTimers (s : state) (t : timer) :
  In t (timers (clearTimers s)) <-> In t (timers s) /\ ~ tracked s t.
Proof.
  rewrite timers_clearTimers, !filter_In, !negb_true_iff.
  unfold tracked, holds.
  destruct (delayTimer s) as [d |], (maxWaitTimer s) as [m |];
    rewrite ?Nat.eqb_neq; intuition congruence.
Qed.

(** C7 on the code.  On its synchronous path [flush()] clears the two
    timers whose handles the closure holds, which are not all timers.  After
    a [flush()] that found the condition false, the 0 ms timer of line 260
    is live and no variable holds its handle.  A second [flush()], called
    while the call is still pending and the condition now answers [true],
    runs the operation with the captured arguments, returns its result and
    sets Pending State to false, and that timer is still live: when it
    fires, its attempt invokes the operation a second time, with [null] for
    [this] and for the arguments. *)
Theorem flush_leaves_deferred_attempt_live :
  exists s0 s,
    run cfg_cond flushed_deferred init = Some s0 /\
    pending s0 = true /\ timers s0 = [mkTimer 2 0 KTryRun] /\
    flush cfg_cond (CReturn true) (FReturn (VNum 7)) s0 = (Return (VNum 7), s) /\
    pending s = false /\
    execs s = [mkExec 0 VNull (Some [VStr "a"])] /\
    timers s = [mkTimer 2 0 KTryRun] /\
    forall f, exists s',
      step cfg_cond (Fire 2 (CReturn true) f) s = Some (Return VUndefined, s') /\
      execs s' = [mkExec 0 VNull (Some [VStr "a"]); mkExec 0 VNull None].
Proof.
  eexists. eexists. split; [vm_compute; reflexivity |].
  split; [reflexivity |]. split; [reflexivity |].
  split; [vm_compute; reflexivity |].
  repeat split.
  intros f. destruct f; eexists; (split; [vm_compute; reflexivity |]);
    reflexivity.
Qed.


(** ** cancelOn *)

Lemma cancel_not_pending (s : state) : hasPending s = false -> cancel s = s.
Proof. intros H. unfold cancel. rewrite H. reflexivity. Qed.

Lemma truthyKey_some (key : string) :
  key <> EmptyString -> truthyKey (Some key) = true.
Proof. destruct key; [congruence | reflexivity]. Qed.

(** C9 as stated fails: outside a browser no listener is attached
    (line 97), so the configured key leaves the call pending. *)
Lemma signal_ignored_outside_browser :
  ~ (forall (cfg : config) (s : state) (key : string),
       reachable cfg s -> cancelKey cfg = Some key -> key <> EmptyString ->
       pending s = true -> keydown cfg key s = cancel s).
Proof.
  intros H.
  assert (Hr : reachable cfg_node
                 (snd (debounced cfg_node VNull [VStr "a"] init))).
  { exists [Call VNull [VStr "a"]]. vm_compute. reflexivity. }
  assert (Hne : "Escape"%string <> EmptyString) by discriminate.
  pose proof (f_equal hasPending
                (H cfg_node _ "Escape"%string Hr eq_refl Hne eq_refl)) as E.
  vm_compute in E. discriminate E.
Qed.

(** C9, amended.  In a browser and with a non-empty [cancelOn] key, a
    keydown of that key acts exactly as [cancel()] in every reachable state,
    and any other key does nothing.  Outside a browser, or with [cancelOn]
    null or empty, no key does anything. *)
Theorem signal_cancels_in_browser (cfg : config) (s : state) :
  reachable cfg s ->
  (isBrowser cfg = true ->
   forall key, cancelKey cfg = Some key -> key <> EmptyString ->
     keydown cfg key s = cancel s /\
     (forall other, other <> key -> keydown cfg other s = s)) /\
  (isBrowser cfg = false \/ truthyKey (cancelKey cfg) = false ->
   forall key, keydown cfg key s = s).
Proof.
  intros Hr. pose proof (reachable_wf _ _ Hr) as W.
  pose proof (wf_registry _ _ W) as Hl.
  split.
  - intros Hb key Hk Hne. unfold keydown, handler. rewrite Hl, Hk.
    destruct (removeKeyListener s) as [h |] eqn:Er; cbn.
    + rewrite String.eqb_refl. split; [reflexivity |].
      intros other Ho. apply String.eqb_neq in Ho. rewrite Ho. reflexivity.
    + split; [| reflexivity].
      symmetry. apply cancel_not_pending.
      destruct (hasPending s) eqn:Ep; [| reflexivity].
      pose proof (wf_subscribed _ _ W Ep Hb) as Hsub.
      rewrite Hk, Er in Hsub. specialize (Hsub (truthyKey_some key Hne)).
      discriminate Hsub.
  - intros Hoff key. unfold keydown. rewrite Hl.
    destruct (removeKeyListener s) as [h |] eqn:Er; [| reflexivity].
    destruct (wf_attached _ _ W) as [Hb Hk]; [rewrite Er; reflexivity |].
    destruct Hoff as [Hoff | Hoff]; congruence.
Qed.

Lemma signal_cancels_in_browser_witness :
  keydown cfg_browser "Escape"
    (snd (debounced cfg_browser VNull [VStr "a"] init))
  = cancel (snd (debounced cfg_browser VNull [VStr "a"] init)).
Proof.
  destruct (signal_cancels_in_browser cfg_browser
              (snd (debounced cfg_browser VNull [VStr "a"] init)))
    as [H _].
  - exists [Call VNull [VStr "a"]]. vm_compute. reflexivity.
  - destruct (H eq_refl "Escape"%string eq_refl) as [E _].
    + discriminate.
    + exact E.
Defined.

(** ** Operations not declared [async] *)

(** What the synchronous path of [flush()] leaves alone. *)
Lemma flush_sync_frame (cfg : config) (c : cond_outcome) (f : fn_outcome)
    (s : state) :
  hasPending s = true ->
  isDeclaredAsyncFunction cfg = false ->
  (condition cfg = false \/ c = CReturn true) ->
  let s' := snd (flush cfg c f s) in
  pendingPromise s' = pendingPromise s /\ nextPromise s' = nextPromise s /\
  inflight s' = inflight s /\ awaiting s' = awaiting s.
Proof.
  intros Hp Hs Hc. revert Hp. open_state s. cbn [hasPending]. intros ->.
  unfold flush. cbn [hasPending lastArgs]. rewrite Hs.
  destruct lA as [args |]; [| repeat split].
  assert (E : (if negb (condition cfg) then true
               else match c with CReturn true => true | _ => false end)
              = true).
  { destruct Hc as [-> | ->]; [reflexivity |].
    destruct (condition cfg); reflexivity. }
  destruct (condition cfg); [destruct c as [[] | |]; try discriminate E |];
    destruct f, dT, mT, rKL; unfold clearTimers, clearMaxWaitTimer,
      clearDelayTimer, clearTimeout, cleanupKeyListener;
    simpl; repeat split; reflexivity.
Qed.

(** What a deferred run leaves alone when the operation returns a promise. *)
Lemma tryRun_run_returns_promise (s : state) :
  let s' := tryRun_run FPromise s in
  inflight s' = inflight s ++ [List.length (execs s)] /\
  settled s' = settled s /\ pendingPromise s' = pendingPromise s /\
  nextPromise s' = nextPromise s.
Proof.
  open_state s. destruct dT, mT, rKL; unfold tryRun_run,
    clearTimers, clearMaxWaitTimer, clearDelayTimer, clearTimeout,
    cleanupKeyListener; simpl; repeat split; reflexivity.
Qed.

(** C10.  The asynchronous mode is decided by [isDeclaredAsyncFunction]
    alone.  For an operation that is not declared [async], whatever it
    returns: no result promise is ever created or settled; every call
    returns [undefined] and creates none; [flush()] on a pending call takes
    its synchronous path (no condition, or a condition that answers [true])
    even when the operation returns a promise: it invokes the operation now
    with the captured arguments, sets Pending State to false, clears the
    Invocation Record, both held timers and the key listener, attaches no
    callback to the operation's promise and returns that promise itself; on
    the deferred path the attempt invokes the operation and attaches its
    callbacks, and when the operation's promise settles the value or error
    goes nowhere: the only change is that the execution is no longer in
    flight. *)
Theorem undeclared_async_treated_as_synchronous (cfg : config) (s : state) :
  reachable cfg s ->
  isDeclaredAsyncFunction cfg = false ->
  (* no result promise exists, was ever created or was ever settled *)
  pendingPromise s = None /\ nextPromise s = 0%nat /\ settled s = [] /\
  (* every call returns undefined and creates none *)
  (forall this args,
     fst (debounced cfg this args s) = Return VUndefined /\
     pendingPromise (snd (debounced cfg this args s)) = None /\
     nextPromise (snd (debounced cfg this args s)) = 0%nat) /\
  (* flush runs the operation on its synchronous path and hands the
     operation's own promise back *)
  (forall c, pending s = true -> (condition cfg = false \/ c = CReturn true) ->
     exists args, lastArgs s = Some args /\
       fst (flush cfg c FPromise s) = ReturnOpPromise (List.length (execs s)) /\
       let s' := snd (flush cfg c FPromise s) in
       execs s' = execs s ++ [mkExec (now s) (lastThis s) (Some args)] /\
       pending s' = false /\ lastArgs s' = None /\
       delayTimer s' = None /\ maxWaitTimer s' = None /\
       (forall t, In t (timers s') <-> In t (timers s) /\ ~ tracked s t) /\
       removeKeyListener s' = None /\ listeners s' = [] /\
       inflight s' = inflight s /\
       pendingPromise s' = None /\ nextPromise s' = 0%nat /\
       settled s' = []) /\
  (* a deferred attempt that passes the condition runs the operation and
     settles nothing *)
  (forall c, (condition cfg = false \/ c = CReturn true) ->
     let s' := tryRun cfg c FPromise s in
     execs s' = execs s ++ [mkExec (now s) (lastThis s) (lastArgs s)] /\
     pending s' = false /\
     inflight s' = inflight s ++ [List.length (execs s)] /\
     pendingPromise s' = None /\ nextPromise s' = 0%nat /\
     settled s' = []) /\
  (* when the promise of execution [k] settles, its value or error is
     dropped *)
  (forall k r, In k (inflight s) ->
     step cfg (OpSettle k r) s
     = Some (Return VUndefined,
             set_inflight (remove_first k (inflight s)) s)).
Proof.
  intros Hr Hs. pose proof (reachable_wf _ _ Hr) as W.
  destruct (wf_sync _ _ W Hs) as (Hpp & Hrs & Hrj & Hst & Hnp).
  split; [exact Hpp |]. split; [exact Hnp |]. split; [exact Hst |].
  split; [| split; [| split]].
  - intros this args.
    assert (Hr' : reachable cfg (snd (debounced cfg this args s))).
    { destruct Hr as [evs Hrun]. exists (evs ++ [Call this args]).
      rewrite run_app, Hrun, run_call. reflexivity. }
    destruct (wf_sync _ _ (reachable_wf _ _ Hr') Hs) as (Hpp' & _ & _ & _ & Hnp').
    split; [| split; assumption].
    unfold debounced. rewrite Hs. reflexivity.
  - intros c Hp Hc. unfold pending in Hp.
    pose proof (wf_args _ _ W Hp) as Ha.
    destruct (lastArgs s) as [args |] eqn:Eargs; [| discriminate Ha].
    exists args. split; [reflexivity |].
    destruct (flush_sync_effect cfg c FPromise s args Hp Eargs Hs Hc)
      as (R & E1 & E2 & E3 & E4 & E5 & E6 & E7 & E8 & E9 & _).
    destruct (flush_sync_frame cfg c FPromise s Hp Hs Hc)
      as (F1 & F2 & F3 & _).
    split; [exact R |]. cbv zeta. unfold pending.
    rewrite E1, E2, E3, E4, E5, E6, E7, E8, E9, F1, F2, F3.
    split; [reflexivity |]. split; [reflexivity |]. split; [reflexivity |].
    split; [reflexivity |]. split; [reflexivity |].
    split; [apply in_clearTimers |].
    split; [reflexivity |].
    split.
    { pose proof (wf_registry _ _ W) as Hl. unfold cleanupKeyListener.
      destruct (removeKeyListener s) as [h |]; [| exact Hl].
      cbn. rewrite Hl. cbn. rewrite Nat.eqb_refl. reflexivity. }
    split; [reflexivity |]. split; [exact Hpp |]. split; assumption.
  - intros c Hc. cbv zeta.
    rewrite tryRun_passes.
    2:{ intros Hcond. destruct Hc as [Hc | Hc]; [congruence | exact Hc]. }
    destruct (tryRun_run_effect FPromise s) as (E1 & E2 & _).
    destruct (tryRun_run_returns_promise s) as (F1 & F2 & F3 & F4).
    unfold pending. rewrite E1, E2, F1, F2, F3, F4.
    repeat split; assumption.
  - intros k r Hk. unfold step.
    assert (E : existsb (Nat.eqb k) (inflight s) = true).
    { apply existsb_exists. exists k. split; [exact Hk | apply Nat.eqb_refl]. }
    rewrite E. f_equal. f_equal.
    revert Hpp Hrs Hrj. clear. open_state s.
    cbn [pendingPromise resolvePending rejectPending]. intros -> -> ->.
    destruct r; reflexivity.
Qed.

Lemma undeclared_async_witness :
  fst (debounced cfg_plain VNull [VStr "a"] init) = Return VUndefined /\
  fst (flush cfg_plain (CReturn true) FPromise
         (snd (debounced cfg_plain VNull [VStr "a"] init)))
    = ReturnOpPromise 0 /\
  execs (snd (flush cfg_plain (CReturn true) FPromise
                (snd (debounced cfg_plain VNull [VStr "a"] init))))
    = [mkExec 0 VNull (Some [VStr "a"])] /\
  pending (snd (flush cfg_plain (CReturn true) FPromise
                  (snd (debounced cfg_plain VNull [VStr "a"] init))))
    = false.
Proof.
  assert (Hr0 : reachable cfg_plain init) by (exists []; reflexivity).
  assert (Hr1 : reachable cfg_plain
                  (snd (debounced cfg_plain VNull [VStr "a"] init))).
  { exists [Call VNull [VStr "a"]]. vm_compute. reflexivity. }
  split.
  - apply (undeclared_async_treated_as_synchronous cfg_plain init Hr0
             eq_refl).
  - destruct (undeclared_async_treated_as_synchronous cfg_plain _ Hr1
                eq_refl) as (_ & _ & _ & _ & H & _).
    destruct (H (CReturn true)) as (args & Ha & R & E & P & _);
      [vm_compute; reflexivity | left; reflexivity |].
    split; [exact R |]. split; [| exact P].
    rewrite E. vm_compute in Ha. injection Ha as <-. reflexivity.
Defined.

(** ** The condition gate *)




(** C6 on the code.  (1) For an operation that is not declared [async]
    the error of the condition rejects nothing and reaches no caller: no
    call of the run throws, no promise exists, and the call stays pending.
    (2) With a max-wait bound the failed attempt is repeated: the error
    rejects the promise at t = 100, Pending State stays true, the max-wait
    callback of t = 150 arms another attempt, and that attempt invokes the
    operation with the arguments of the call whose promise was rejected;
    what the operation returns settles nothing. *)
Theorem condition_error_dropped_and_attempt_repeated :
  (outputs cfg_cond condition_throws init
     = Some [Return VUndefined; Return VUndefined; Return VUndefined] /\
   exists s,
     run cfg_cond condition_throws init = Some s /\
     settled s = [] /\ nextPromise s = 0%nat /\ pending s = true) /\
  (outputs cfg_async_cond_maxwait
     (condition_throws_with_deadline ++ deadline_after_error) init
     = Some [ReturnResultPromise 0; Return VUndefined; Return VUndefined;
             Return VUndefined; Return VUndefined; Return VUndefined] /\
   exists s1 s,
     run cfg_async_cond_maxwait condition_throws_with_deadline init = Some s1 /\
     settled s1 = [(0%nat, Rejected (VError "boom"))] /\
     execs s1 = [] /\ pending s1 = true /\
     run cfg_async_cond_maxwait deadline_after_error s1 = Some s /\
     execs s = [mkExec 150 VNull (Some [VStr "a"])] /\
     settled s = [(0%nat, Rejected (VError "boom"))] /\
     pending s = false).
Proof.
  split.
  - split; [vm_compute; reflexivity |].
    eexists. split; [vm_compute; reflexivity |]. repeat split.
  - split; [vm_compute; reflexivity |].
    eexists. eexists. split; [vm_compute; reflexivity |].
    split; [reflexivity |]. split; [reflexivity |]. split; [reflexivity |].
    split; [vm_compute; reflexivity |]. repeat split.
Qed.


(** C2 on the code.  [cancel()] while pending clears the state, and the
    operation runs all the same: (1) when an attempt is suspended on an
    asynchronous condition, it resumes after the cancel and invokes the
    operation with [null] arguments; (2) after a deferred [flush()], the
    0 ms timer whose handle was not kept survives the cancel and its attempt
    invokes the operation. *)
Theorem cancel_does_not_stop_suspended_attempt :
  (exists s,
     run cfg_async_cond awaiting_condition init = Some s /\
     pending s = true /\
     pending (cancel s) = false /\ timers (cancel s) = [] /\
     settled (cancel s) = [(0%nat, Rejected DebounceCancelledError)] /\
     forall f,
       execs (tryRun_resume cfg_async_cond (Resolved true) f (cancel s))
       = [mkExec 100 VNull None]) /\
  (exists s,
     run cfg_cond flushed_deferred init = Some s /\
     pending s = true /\
     pending (cancel s) = false /\
     timers (cancel s) = [mkTimer 2 0 KTryRun] /\
     forall f,
       execs (tryRun cfg_cond (CReturn true) f (clearTimeout 2 (cancel s)))
       = [mkExec 0 VNull None]).
Proof.
  split.
  - eexists. split; [vm_compute; reflexivity |].
    repeat split. intros f. destruct f; reflexivity.
  - eexists. split; [vm_compute; reflexivity |].
    repeat split. intros f. destruct f; reflexivity.
Qed.

(** A call every 100 ms keeps replacing the delay timer. *)
Lemma starving_step (s : state) :
  starving s ->
  exists s', run cfg_maxwait [Wait 100; Call VNull [VStr "x"]] s = Some s' /\
    starving s' /\ now s' = now s + 100.
Proof.
  intros (Hp & He & h & Hd & Ht).
  exists (snd (debounced cfg_maxwait VNull [VStr "x"]
                 (set_now (now s + 100) s))).
  split.
  - rewrite run_wait, run_call; [reflexivity |].
    unfold can_wait. rewrite Ht. cbn [forallb due].
    rewrite !andb_true_iff, !Z.leb_le. lia.
  - revert Hp He Hd Ht. open_state s.
    cbn [hasPending execs delayTimer timers now]. intros -> -> -> ->.
    unfold starving, debounced, schedule, clearDelayTimer, attachKeyListener.
    destruct rKL; cbn; rewrite Nat.eqb_refl; cbn;
      (split; [| reflexivity]); repeat split; eexists; split; reflexivity.
Qed.

(** C3 on the code.  [delay = 1000], [maxWait = 500], a call every 100 ms
    from t = 0.  The max-wait callback fires at t = 500 and arms a 0 ms
    attempt; the call of t = 500 arriving before that attempt replaces it by
    a new delay timer, and no max-wait timer is armed again: however many
    calls follow, the operation has not run. *)
Theorem call_after_deadline_starves_operation (n : nat) :
  exists s,
    run cfg_maxwait (calls_until_deadline ++ calls_every_100 n) init = Some s /\
    maxWaitEnabled cfg_maxwait = Some 500 /\
    now s = 500 + 100 * Z.of_nat n /\
    pending s = true /\ execs s = [] /\
    forall t, In t (timers s) -> kind t = KTryRun /\ due t = now s + 1000.
Proof.
  assert (H : exists s,
            run cfg_maxwait (calls_until_deadline ++ calls_every_100 n) init
              = Some s /\ starving s /\ now s = 500 + 100 * Z.of_nat n).
  { induction n as [| n IH].
    - eexists. split; [vm_compute; reflexivity |].
      split; [| reflexivity].
      repeat split. eexists. split; reflexivity.
    - destruct IH as (s & Hrun & Hst & Hn).
      destruct (starving_step s Hst) as (s' & Hrun' & Hst' & Hn').
      exists s'. split; [| split; [exact Hst' | lia]].
      replace (calls_every_100 (S n))
        with (calls_every_100 n ++ [Wait 100; Call VNull [VStr "x"]]).
      + rewrite app_assoc, run_app, Hrun. exact Hrun'.
      + clear. induction n as [| n IH]; [reflexivity |].
        cbn [calls_every_100 app]. rewrite IH. reflexivity. }
  destruct H as (s & Hrun & (Hp & He & h & Hd & Ht) & Hn).
  exists s. repeat split; try assumption; try reflexivity.
  - rewrite Ht in H. destruct H as [<- | []]. reflexivity.
  - rewrite Ht in H. destruct H as [<- | []]. reflexivity.
Qed.

(** C4 on the code.  A call that opens a second burst while the first
    burst's operation is still in flight receives the first burst's promise;
    that promise settles with the first execution's value, and the value of
    the second burst's own execution is dropped. *)
Theorem second_burst_receives_first_burst_result :
  outputs cfg_async overlapping_bursts init =
    Some [ReturnResultPromise 0; Return VUndefined; Return VUndefined;
          ReturnResultPromise 0;
          Return VUndefined; Return VUndefined; Return VUndefined;
          Return VUndefined] /\
  exists s,
    run cfg_async overlapping_bursts init = Some s /\
    execs s = [mkExec 100 VNull (Some [VStr "a"]);
               mkExec 200 VNull (Some [VStr "b"])] /\
    settled s = [(0%nat, Resolved (VStr "result of a"))] /\
    nextPromise s = 1%nat.
Proof.
  split; [vm_compute; reflexivity |].
  eexists. split; [vm_compute; reflexivity |]. repeat split.
Qed.

(** C8 on the code.  After a call whose attempt fails because the
    condition throws, Pending State is true although no timer is live and no
    attempt is suspended. *)
Theorem condition_error_leaves_pending_without_timer :
  exists s,
    run cfg_cond condition_throws init = Some s /\
    pending s = true /\ timers s = [] /\ awaiting s = 0%nat /\
    inflight s = [] /\ execs s = [].
Proof.
  eexists. split; [vm_compute; reflexivity |]. repeat split.
Qed.

(** * Further properties of the code *)


(** ** Construction (lines 56-72) *)

(** X1.  [debounce] throws "Expected a function to debounce" whenever [fn]
    is not a function, whatever the delay; for a function it throws the delay
    error unless [delay] is a finite number that is not negative; a function
    with such a delay is accepted, zero included, and the instance is built
    from the arguments unchanged; nothing else is accepted; and the max-wait
    bound is off exactly when [maxWait] is null, not finite or not
    positive. *)
Theorem debounce_validates_arguments (browser : bool) (fn delayArg : jsval)
    (options : DebounceOptions) :
  (* the function is checked first *)
  ((forall a, fn <> JFunction a) ->
     debounce browser fn delayArg options = inl not_a_function) /\
  (* then the delay *)
  (forall a, fn = JFunction a ->
     (forall d, delayArg = JNumber (Fin d) -> d < 0) ->
     debounce browser fn delayArg options = inl bad_delay) /\
  (* a function with a finite delay that is not negative is accepted, and
     the instance is built from the arguments as they are *)
  (forall a d, fn = JFunction a -> delayArg = JNumber (Fin d) -> 0 <= d ->
     debounce browser fn delayArg options
     = inr {| delay := d;
              cancelKey := cancelOn options;
              maxWait := maxWaitOption options;
              condition := conditionOption options;
              isDeclaredAsyncFunction := a;
              isBrowser := browser |}) /\
  (* nothing else is accepted *)
  (forall cfg, debounce browser fn delayArg options = inr cfg ->
     exists a d, fn = JFunction a /\ delayArg = JNumber (Fin d) /\ 0 <= d /\
       delay cfg = d /\ isDeclaredAsyncFunction cfg = a /\
       cancelKey cfg = cancelOn options /\
       maxWait cfg = maxWaitOption options /\
       condition cfg = conditionOption options /\
       (maxWaitEnabled cfg = None <->
        forall w, maxWaitOption options = Some (Fin w) -> w <= 0)).
Proof.
  repeat split.
  - intros H. destruct fn; try reflexivity. exfalso. apply (H async).
    reflexivity.
  - intros a -> H. destruct delayArg as [| | | [d | | |] | | |]; try reflexivity.
    cbn. specialize (H d eq_refl).
    destruct (d <? 0) eqn:E; [reflexivity |]. apply Z.ltb_ge in E. lia.
  - intros a d -> -> Hd. cbn.
    destruct (d <? 0) eqn:E; [| reflexivity]. apply Z.ltb_lt in E. lia.
  - intros cfg H.
    destruct fn as [| | | | | | a]; try discriminate H.
    destruct delayArg as [| | | [d | | |] | | |]; try discriminate H.
    cbn in H. destruct (d <? 0) eqn:E; [discriminate H |].
    apply Z.ltb_ge in E. injection H as <-.
    exists a, d. repeat split; try reflexivity; try assumption.
    + unfold maxWaitEnabled. cbn. intros Hn w Hw. rewrite Hw in Hn.
      destruct (0 <? w) eqn:E0; [discriminate Hn |].
      apply Z.ltb_ge in E0. exact E0.
    + unfold maxWaitEnabled. cbn. intros Hn.
      destruct (maxWaitOption options) as [[w | | |] |]; try reflexivity.
      specialize (Hn w eq_refl).
      destruct (0 <? w) eqn:E0; [| reflexivity].
      apply Z.ltb_lt in E0. lia.
Qed.

Lemma debounce_validates_witness :
  debounce true JNull (JNumber (Fin 100))
    {| cancelOn := None; maxWaitOption := None; conditionOption := false |}
  = inl not_a_function /\
  debounce true (JFunction false) (JNumber (Fin (-1)))
    {| cancelOn := None; maxWaitOption := None; conditionOption := false |}
  = inl bad_delay /\
  debounce true (JFunction false) (JNumber (Fin 0))
    {| cancelOn := Some "Escape"%string; maxWaitOption := Some (Fin 500);
       conditionOption := true |}
  = inr {| delay := 0; cancelKey := Some "Escape"%string;
           maxWait := Some (Fin 500); condition := true;
           isDeclaredAsyncFunction := false; isBrowser := true |}.
Proof.
  split; [| split].
  - apply (debounce_validates_arguments true JNull (JNumber (Fin 100))).
    intros a. discriminate.
  - destruct (debounce_validates_arguments true (JFunction false)
                (JNumber (Fin (-1)))
                {| cancelOn := None; maxWaitOption := None;
                   conditionOption := false |}) as (_ & H & _).
    apply (H false eq_refl). intros d E. injection E as <-. lia.
  - destruct (debounce_validates_arguments true (JFunction false)
                (JNumber (Fin 0))
                {| cancelOn := Some "Escape"%string;
                   maxWaitOption := Some (Fin 500);
                   conditionOption := true |}) as (_ & _ & H & _).
    apply (H false 0 eq_refl eq_refl). lia.
Defined.

(** ** Induction over reachable states *)

Lemma run_snoc (cfg : config) (evs : list event) (ev : event) (s : state) :
  run cfg (evs ++ [ev]) s =
  match run cfg evs s with
  | Some s1 =>
      match step cfg ev s1 with
      | Some (_, s2) => Some s2
      | None => None
      end
  | None => None
  end.
Proof.
  rewrite run_app. destruct (run cfg evs s) as [s1 |]; [| reflexivity].
  cbn. destruct (step cfg ev s1) as [[r s2] |]; reflexivity.
Qed.

Lemma reachable_induction (cfg : config) (P : state -> Prop) :
  P init ->
  (forall s ev r s', reachable cfg s -> P s ->
     step cfg ev s = Some (r, s') -> P s') ->
  forall s, reachable cfg s -> P s.
Proof.
  intros H0 Hstep s [evs Hrun]. revert s Hrun.
  induction evs as [| ev evs IH] using rev_ind; intros s Hrun.
  - injection Hrun as <-. exact H0.
  - rewrite run_snoc in Hrun.
    destruct (run cfg evs init) as [s1 |] eqn:E1; [| discriminate Hrun].
    destruct (step cfg ev s1) as [[r s2] |] eqn:E2; [| discriminate Hrun].
    injection Hrun as <-.
    apply (Hstep s1 ev r s2); [exists evs; exact E1 | apply IH; reflexivity
                              | exact E2].
Qed.


(** ** The result promise (lines 80-82, 118-126 and every settling site) *)

Lemma promise_inv_view (s s' : state) :
  pview s' = pview s -> promise_inv s -> promise_inv s'.
Proof.
  unfold pview, promise_inv. intros E. injection E as -> -> -> -> ->.
  tauto.
Qed.

Lemma settle_inv (s : state) (r : settlement value) (o : option nat) :
  promise_inv s -> (o = None \/ o = pendingPromise s) ->
  promise_inv
    (match o with
     | Some p => set_settled (settled (clearPromiseVars s) ++ [(p, r)])
                   (clearPromiseVars s)
     | None => clearPromiseVars s
     end).
Proof.
  open_state s. unfold promise_inv, clearPromiseVars. cbn.
  intros (-> & -> & Hp & Hs & Hn) Ho.
  destruct o as [p |]; cbn.
  - destruct Ho as [Ho | Ho]; [discriminate Ho |]. subst pP.
    destruct (Hp p eq_refl) as [Hlt Hnin].
    repeat split; try discriminate.
    + intros q Hq. rewrite map_app in Hq. apply in_app_or in Hq.
      destruct Hq as [Hq | [<- | []]]; [apply Hs, Hq | exact Hlt].
    + rewrite map_app. cbn. apply NoDup_app; [exact Hn | | ].
      * constructor; [intros [] | constructor].
      * intros q Hq [<- | []]. contradiction.
  - repeat split; try discriminate; assumption.
Qed.

Lemma rejectOutstanding_inv (err : value) (s : state) :
  promise_inv s -> promise_inv (rejectOutstanding err s).
Proof.
  intros H. apply (settle_inv s (Rejected err) (rejectPending s) H).
  right. apply H.
Qed.

Lemma resolveOutstanding_inv (val : value) (s : state) :
  promise_inv s -> promise_inv (resolveOutstanding val s).
Proof.
  intros H. apply (settle_inv s (Resolved val) (resolvePending s) H).
  right. apply H.
Qed.

Lemma ensurePendingPromise_inv (s : state) :
  promise_inv s -> promise_inv (snd (ensurePendingPromise s)).
Proof.
  open_state s. unfold promise_inv, ensurePendingPromise. cbn.
  intros (-> & -> & Hp & Hs & Hn).
  destruct pP as [p |]; cbn.
  - repeat split; try assumption; apply Hp; assumption.
  - repeat split; try assumption.
    + injection H as <-. lia.
    + injection H as <-. intros Hin. apply Hs in Hin. lia.
    + intros q Hq. apply Hs in Hq. lia.
Qed.

Lemma promise_step_inv (s s' : state) :
  promise_step s s' -> promise_inv s -> promise_inv s'.
Proof.
  intros [E | [[err E] | [[val E] | E]]] H;
    apply (promise_inv_view _ _ E).
  - exact H.
  - now apply rejectOutstanding_inv.
  - now apply resolveOutstanding_inv.
  - now apply ensurePendingPromise_inv.
Qed.

(** The functions that never touch the promise variables. *)

Lemma pview_clearTimeout (h : nat) (s : state) :
  pview (clearTimeout h s) = pview s.
Proof. reflexivity. Qed.

Lemma pview_clearDelayTimer (s : state) : pview (clearDelayTimer s) = pview s.
Proof. unfold clearDelayTimer. destruct (delayTimer s); reflexivity. Qed.

Lemma pview_clearMaxWaitTimer (s : state) :
  pview (clearMaxWaitTimer s) = pview s.
Proof. unfold clearMaxWaitTimer. destruct (maxWaitTimer s); reflexivity. Qed.

Lemma pview_clearTimers (s : state) : pview (clearTimers s) = pview s.
Proof.
  unfold clearTimers.
  now rewrite pview_clearMaxWaitTimer, pview_clearDelayTimer.
Qed.

Lemma pview_cleanupKeyListener (s : state) :
  pview (cleanupKeyListener s) = pview s.
Proof. unfold cleanupKeyListener. destruct (removeKeyListener s); reflexivity. Qed.

Lemma pview_attachKeyListener (cfg : config) (s : state) :
  pview (attachKeyListener cfg s) = pview s.
Proof.
  unfold attachKeyListener.
  destruct (negb (isBrowser cfg) || negb (truthyKey (cancelKey cfg))
            || match removeKeyListener s with
               | Some _ => true
               | None => false
               end); reflexivity.
Qed.

Lemma pview_schedule (cfg : config) (s : state) :
  pview (schedule cfg s) = pview s.
Proof.
  cbv beta iota zeta delta [schedule setTimeout].
  rewrite pview_attachKeyListener.
  match goal with
  | |- pview (set_delayTimer _ (set_nextId _ (set_timers _ (clearDelayTimer ?x))))
       = _ =>
      transitivity (pview (clearDelayTimer x)); [reflexivity |];
      rewrite pview_clearDelayTimer
  end.
  destruct (negb (hasPending s)); [| reflexivity].
  destruct (maxWaitEnabled cfg); reflexivity.
Qed.

Lemma pview_maxWaitFired (s : state) : pview (maxWaitFired s) = pview s.
Proof.
  unfold maxWaitFired. destruct (hasPending s); [| reflexivity].
  cbv beta iota zeta delta [setTimeout].
  transitivity (pview (clearDelayTimer s)); [reflexivity |].
  apply pview_clearDelayTimer.
Qed.

Lemma pview_tryRun_retry (cfg : config) (s : state) :
  pview (tryRun_retry cfg s) = pview s.
Proof.
  unfold tryRun_retry. cbv beta iota zeta delta [setTimeout]. reflexivity.
Qed.

(** Settling and creating depend on the promise variables only. *)

Lemma pview_reject_congr (err : value) (s1 s2 : state) :
  pview s1 = pview s2 ->
  pview (rejectOutstanding err s1) = pview (rejectOutstanding err s2).
Proof.
  unfold pview, rejectOutstanding, clearPromiseVars.
  intros E. injection E as E1 E2 E3 E4 E5. rewrite E3.
  destruct (rejectPending s2); cbn; rewrite ?E4, ?E5; reflexivity.
Qed.

Lemma pview_resolve_congr (val : value) (s1 s2 : state) :
  pview s1 = pview s2 ->
  pview (resolveOutstanding val s1) = pview (resolveOutstanding val s2).
Proof.
  unfold pview, resolveOutstanding, clearPromiseVars.
  intros E. injection E as E1 E2 E3 E4 E5. rewrite E2.
  destruct (resolvePending s2); cbn; rewrite ?E4, ?E5; reflexivity.
Qed.

Lemma pview_ensure_congr (s1 s2 : state) :
  pview s1 = pview s2 ->
  pview (snd (ensurePendingPromise s1)) = pview (snd (ensurePendingPromise s2)).
Proof.
  unfold pview, ensurePendingPromise.
  intros E. injection E as E1 E2 E3 E4 E5. rewrite E1.
  destruct (pendingPromise s2) eqn:E0; cbn;
    rewrite ?E0, ?E1, ?E2, ?E3, ?E4, ?E5; reflexivity.
Qed.

(** The state a run or a synchronous flush builds before it calls [fn]. *)
Lemma pview_detached (e : list exec) (s : state) :
  pview (set_execs e (set_lastThis VNull (set_lastArgs None
           (set_hasPending false (cleanupKeyListener (clearTimers s))))))
  = pview s.
Proof.
  transitivity (pview (cleanupKeyListener (clearTimers s))); [reflexivity |].
  now rewrite pview_cleanupKeyListener, pview_clearTimers.
Qed.

Lemma tryRun_run_promise (f : fn_outcome) (s : state) :
  promise_step s (tryRun_run f s).
Proof.
  unfold tryRun_run, promise_step. cbv zeta.
  destruct f as [v | err |].
  - right; right; left. exists v. apply pview_resolve_congr, pview_detached.
  - right; left. exists err. apply pview_reject_congr, pview_detached.
  - left. etransitivity; [| apply (pview_detached
        (execs s ++ [mkExec (now s) (lastThis s) (lastArgs s)]))].
    reflexivity.
Qed.

Lemma cancel_promise (s : state) : promise_step s (cancel s).
Proof.
  unfold cancel, promise_step. destruct (negb (hasPending s));
    [left; reflexivity |].
  right; left. exists DebounceCancelledError. cbv zeta.
  apply pview_reject_congr.
  transitivity (pview (cleanupKeyListener (clearTimers s))); [reflexivity |].
  now rewrite pview_cleanupKeyListener, pview_clearTimers.
Qed.

Lemma hasPending_cancel (s : state) : hasPending (cancel s) = false.
Proof.
  unfold cancel. destruct (hasPending s) eqn:E; cbn [negb]; [| exact E].
  cbv zeta. unfold rejectOutstanding. cbv zeta.
  match goal with
  | |- context [match ?o with Some _ => _ | None => _ end] => destruct o
  end; reflexivity.
Qed.

Lemma cancel_idempotent (s : state) : cancel (cancel s) = cancel s.
Proof. apply cancel_not_pending, hasPending_cancel. Qed.

Lemma keydown_cases (cfg : config) (key : string) (s : state) :
  keydown cfg key s = s \/ keydown cfg key s = cancel s.
Proof.
  unfold keydown, handler. generalize (listeners s) as l.
  destruct (cancelKey cfg) as [k |].
  - destruct (String.eqb key k).
    + intros l. destruct l as [| x l]; [left; reflexivity | right].
      cbn. induction l as [| y l IH]; [reflexivity |].
      cbn. rewrite cancel_idempotent. exact IH.
    + intros l. left. induction l as [| x l IH]; [reflexivity | exact IH].
  - intros l. left. induction l as [| x l IH]; [reflexivity | exact IH].
Qed.

Lemma snd_debounced (cfg : config) (this : value) (args : list value)
    (s : state) :
  snd (debounced cfg this args s) =
  let s1 := schedule cfg (set_lastThis this (set_lastArgs (Some args) s)) in
  if isDeclaredAsyncFunction cfg then snd (ensurePendingPromise s1) else s1.
Proof.
  unfold debounced. cbv zeta. destruct (isDeclaredAsyncFunction cfg);
    [| reflexivity].
  destruct (ensurePendingPromise _); reflexivity.
Qed.

Lemma debounced_promise (cfg : config) (this : value) (args : list value)
    (s : state) :
  promise_step s (snd (debounced cfg this args s)).
Proof.
  rewrite snd_debounced. cbv zeta. unfold promise_step.
  assert (E : pview (schedule cfg
                       (set_lastThis this (set_lastArgs (Some args) s)))
              = pview s) by (rewrite pview_schedule; reflexivity).
  destruct (isDeclaredAsyncFunction cfg).
  - right; right; right. apply pview_ensure_congr, E.
  - left. exact E.
Qed.

Lemma promise_step_from (s0 s s' : state) :
  pview s0 = pview s -> promise_step s0 s' -> promise_step s s'.
Proof.
  intros E [H | [[err H] | [[val H] | H]]].
  - left. congruence.
  - right; left. exists err. rewrite H. now apply pview_reject_congr.
  - right; right; left. exists val. rewrite H. now apply pview_resolve_congr.
  - right; right; right. rewrite H. now apply pview_ensure_congr.
Qed.

Lemma tryRun_checked_promise (cfg : config) (ok : bool) (f : fn_outcome)
    (s : state) :
  promise_step s (tryRun_checked cfg ok f s).
Proof.
  unfold tryRun_checked. destruct ok; [apply tryRun_run_promise |].
  left. apply pview_tryRun_retry.
Qed.

Lemma tryRun_promise (cfg : config) (c : cond_outcome) (f : fn_outcome)
    (s : state) :
  promise_step s (tryRun cfg c f s).
Proof.
  unfold tryRun. destruct (condition cfg); [| apply tryRun_run_promise].
  destruct c as [ok | err |].
  - apply tryRun_checked_promise.
  - right; left. exists err. reflexivity.
  - left. reflexivity.
Qed.

Lemma flush_promise (cfg : config) (c : cond_outcome) (f : fn_outcome)
    (s : state) :
  promise_step s (snd (flush cfg c f s)).
Proof.
  unfold flush.
  destruct (hasPending s); [| left; reflexivity].
  destruct (lastArgs s) as [args |]; [| left; reflexivity].
  cbv zeta.
  assert (E : pview (clearMaxWaitTimer (clearDelayTimer s)) = pview s)
    by (now rewrite pview_clearMaxWaitTimer, pview_clearDelayTimer).
  destruct (isDeclaredAsyncFunction cfg).
  - right; right; right.
    rewrite <- (pview_ensure_congr _ _ E).
    destruct (ensurePendingPromise (clearMaxWaitTimer (clearDelayTimer s)));
      reflexivity.
  - destruct (negb (condition cfg)).
    + left. destruct f; cbn [snd]; apply pview_detached.
    + destruct c as [[] | err |].
      * left. destruct f; cbn [snd]; apply pview_detached.
      * left. cbn [snd setTimeout]. exact E.
      * left. reflexivity.
      * left. cbn [snd setTimeout]. exact E.
Qed.

Lemma fire_promise (cfg : config) (h : nat) (k : timer_kind)
    (c : cond_outcome) (f : fn_outcome) (s : state) :
  promise_step s
    (match k with
     | KTryRun => tryRun cfg c f (clearTimeout h s)
     | KMaxWait => maxWaitFired (clearTimeout h s)
     end).
Proof.
  destruct k.
  - apply (promise_step_from (clearTimeout h s)); [reflexivity |].
    apply tryRun_promise.
  - left. rewrite pview_maxWaitFired. reflexivity.
Qed.

Lemma resume_promise (cfg : config) (r : settlement bool) (f : fn_outcome)
    (s : state) :
  promise_step s (tryRun_resume cfg r f s).
Proof.
  unfold tryRun_resume. cbv zeta.
  apply (promise_step_from (set_awaiting (pred (awaiting s)) s));
    [reflexivity |].
  destruct r as [ok | err].
  - apply tryRun_checked_promise.
  - right; left. exists err. reflexivity.
Qed.

Lemma opSettled_promise (l : list nat) (r : settlement value) (s : state) :
  promise_step s (opSettled r (set_inflight l s)).
Proof.
  apply (promise_step_from (set_inflight l s)); [reflexivity |].
  destruct r as [val | err].
  - right; right; left. exists val. reflexivity.
  - right; left. exists err. reflexivity.
Qed.

Lemma step_promise (cfg : config) (ev : event) (s s' : state)
    (r : completion) :
  step cfg ev s = Some (r, s') -> promise_step s s'.
Proof.
  destruct ev; cbn [step].
  - intros E. injection E as E.
    pose proof (debounced_promise cfg this args s) as H.
    rewrite E in H. exact H.
  - intros E. injection E as _ <-. apply cancel_promise.
  - intros E. injection E as E.
    pose proof (flush_promise cfg c f s) as H. rewrite E in H. exact H.
  - intros E. injection E as _ <-.
    destruct (keydown_cases cfg key s) as [-> | ->];
      [left; reflexivity | apply cancel_promise].
  - destruct (can_wait dt s); [| discriminate].
    intros E. injection E as _ <-. left. reflexivity.
  - destruct (find_timer h s) as [t |]; [| discriminate].
    destruct (due t <=? now s); [| discriminate].
    intros E. injection E as _ <-. apply fire_promise.
  - destruct (awaiting s); [discriminate |].
    intros E. injection E as _ <-. apply resume_promise.
  - destruct (existsb (Nat.eqb k) (inflight s)); [| discriminate].
    intros E. injection E as _ <-. apply opSettled_promise.
Qed.

Lemma reachable_promise_inv (cfg : config) (s : state) :
  reachable cfg s -> promise_inv s.
Proof.
  apply reachable_induction.
  - repeat split; try discriminate; try constructor. intros p [].
  - intros s0 ev r s1 _ H E.
    apply (promise_step_inv s0 s1); [| exact H].
    eapply step_promise; exact E.
Qed.

(** X2.  In every reachable state the three promise variables name the
    same promise or are all null; the outstanding promise has not been
    settled; and no result promise is settled twice. *)
Theorem result_promise_settled_at_most_once (cfg : config) (s : state) :
  reachable cfg s ->
  resolvePending s = pendingPromise s /\
  rejectPending s = pendingPromise s /\
  (forall p, pendingPromise s = Some p ->
     (p < nextPromise s)%nat /\ ~ In p (map fst (settled s))) /\
  (forall p r, In (p, r) (settled s) -> (p < nextPromise s)%nat) /\
  NoDup (map fst (settled s)).
Proof.
  intros Hr.
  destruct (reachable_promise_inv cfg s Hr) as (H1 & H2 & H3 & H4 & H5).
  repeat split; try assumption; try (apply H3; assumption).
  intros p r Hin. apply H4. apply in_map_iff. exists (p, r).
  split; [reflexivity | exact Hin].
Qed.

Lemma result_promise_witness :
  NoDup (map fst (settled (snd (debounced cfg_async VNull [VStr "a"] init)))).
Proof.
  assert (Hr : reachable cfg_async
                 (snd (debounced cfg_async VNull [VStr "a"] init))).
  { exists [Call VNull [VStr "a"]]. vm_compute. reflexivity. }
  destruct (result_promise_settled_at_most_once cfg_async _ Hr)
    as (_ & _ & _ & _ & H).
  exact H.
Defined.



(** ** Views of the state *)

Ltac split_match :=
  repeat match goal with
  | |- context [match ?o with Some _ => _ | None => _ end] => destruct o
  | |- context [if ?b then _ else _] => destruct b
  end.

Lemma uview_clearDelayTimer (s : state) : uview (clearDelayTimer s) = uview s.
Proof. unfold clearDelayTimer. split_match; reflexivity. Qed.

Lemma uview_clearMaxWaitTimer (s : state) :
  uview (clearMaxWaitTimer s) = uview s.
Proof. unfold clearMaxWaitTimer. split_match; reflexivity. Qed.

Lemma uview_clearTimers (s : state) : uview (clearTimers s) = uview s.
Proof.
  unfold clearTimers.
  now rewrite uview_clearMaxWaitTimer, uview_clearDelayTimer.
Qed.

Lemma uview_cleanupKeyListener (s : state) :
  uview (cleanupKeyListener s) = uview s.
Proof. unfold cleanupKeyListener. split_match; reflexivity. Qed.

Lemma uview_attachKeyListener (cfg : config) (s : state) :
  uview (attachKeyListener cfg s) = uview s.
Proof. unfold attachKeyListener. split_match; reflexivity. Qed.

Lemma uview_ensurePendingPromise (s : state) :
  uview (snd (ensurePendingPromise s)) = uview s.
Proof. unfold ensurePendingPromise. split_match; reflexivity. Qed.

Lemma uview_rejectOutstanding (err : value) (s : state) :
  uview (rejectOutstanding err s) = uview s.
Proof.
  unfold rejectOutstanding. cbv zeta. split_match; reflexivity.
Qed.

Lemma uview_resolveOutstanding (val : value) (s : state) :
  uview (resolveOutstanding val s) = uview s.
Proof.
  unfold resolveOutstanding. cbv zeta. split_match; reflexivity.
Qed.

Lemma uview_schedule (cfg : config) (s : state) :
  uview (schedule cfg s) = uview s.
Proof.
  cbv beta iota zeta delta [schedule setTimeout].
  rewrite uview_attachKeyListener.
  match goal with
  | |- uview (set_delayTimer _ (set_nextId _ (set_timers _ (clearDelayTimer ?x))))
       = _ =>
      transitivity (uview (clearDelayTimer x)); [reflexivity |];
      rewrite uview_clearDelayTimer
  end.
  destruct (negb (hasPending s)); [| reflexivity].
  destruct (maxWaitEnabled cfg); reflexivity.
Qed.

Lemma hasPending_attachKeyListener (cfg : config) (s : state) :
  hasPending (attachKeyListener cfg s) = hasPending s.
Proof. unfold attachKeyListener. split_match; reflexivity. Qed.

Lemma hasPending_clearDelayTimer (s : state) :
  hasPending (clearDelayTimer s) = hasPending s.
Proof. unfold clearDelayTimer. split_match; reflexivity. Qed.

Lemma hasPending_schedule (cfg : config) (s : state) :
  hasPending (schedule cfg s) = true.
Proof.
  cbv beta iota zeta delta [schedule setTimeout].
  rewrite hasPending_attachKeyListener.
  match goal with
  | |- hasPending (set_delayTimer _ (set_nextId _ (set_timers _
                     (clearDelayTimer ?x)))) = _ =>
      transitivity (hasPending (clearDelayTimer x)); [reflexivity |];
      rewrite hasPending_clearDelayTimer
  end.
  destruct (hasPending s) eqn:E; cbn [negb]; [exact E |].
  destruct (maxWaitEnabled cfg); reflexivity.
Qed.

Lemma hasPending_ensurePendingPromise (s : state) :
  hasPending (snd (ensurePendingPromise s)) = hasPending s.
Proof. unfold ensurePendingPromise. split_match; reflexivity. Qed.

Lemma hasPending_debounced (cfg : config) (this : value)
    (args : list value) (s : state) :
  hasPending (snd (debounced cfg this args s)) = true.
Proof.
  rewrite snd_debounced. cbv zeta.
  destruct (isDeclaredAsyncFunction cfg);
    rewrite ?hasPending_ensurePendingPromise; apply hasPending_schedule.
Qed.

(** What a call returns. *)
Lemma fst_debounced (cfg : config) (this : value) (args : list value)
    (s : state) :
  fst (debounced cfg this args s) =
  if isDeclaredAsyncFunction cfg then
    ReturnResultPromise
      (match pendingPromise s with Some p => p | None => nextPromise s end)
  else Return VUndefined.
Proof.
  unfold debounced. cbv zeta. destruct (isDeclaredAsyncFunction cfg);
    [| reflexivity].
  pose proof (pview_schedule cfg
                (set_lastThis this (set_lastArgs (Some args) s))) as E.
  unfold pview in E. injection E as E1 _ _ E4 _.
  unfold ensurePendingPromise. rewrite E1, E4. cbn.
  destruct (pendingPromise s); reflexivity.
Qed.

(** X3.  A call never runs the operation and settles nothing: it overwrites
    the Invocation Record with its own [this] and arguments, makes
    [pending()] true, and returns [undefined], or for an operation declared
    [async] the outstanding promise (created now if there is none). *)
Theorem call_records_arguments_and_defers (cfg : config) (this : value)
    (args : list value) (s : state) :
  let s' := snd (debounced cfg this args s) in
  pending s' = true /\
  lastArgs s' = Some args /\ lastThis s' = this /\
  execs s' = execs s /\ settled s' = settled s /\
  inflight s' = inflight s /\ awaiting s' = awaiting s /\ now s' = now s /\
  fst (debounced cfg this args s) =
    (if isDeclaredAsyncFunction cfg then
       ReturnResultPromise
         (match pendingPromise s with Some p => p | None => nextPromise s end)
     else Return VUndefined).
Proof.
  cbv zeta. rewrite snd_debounced, fst_debounced. cbv zeta.
  pose proof (uview_schedule cfg
                (set_lastThis this (set_lastArgs (Some args) s))) as U.
  pose proof (pview_schedule cfg
                (set_lastThis this (set_lastArgs (Some args) s))) as P.
  pose proof (hasPending_schedule cfg
                (set_lastThis this (set_lastArgs (Some args) s))) as H.
  destruct (isDeclaredAsyncFunction cfg).
  - rewrite <- (uview_ensurePendingPromise
                  (schedule cfg
                     (set_lastThis this (set_lastArgs (Some args) s)))) in U.
    unfold uview in U. cbn [lastArgs lastThis execs now awaiting inflight
      set_lastThis set_lastArgs] in U.
    injection U as U1 U2 U3 U4 U5 U6.
    unfold pending. rewrite hasPending_ensurePendingPromise.
    repeat split; try assumption.
    unfold ensurePendingPromise.
    unfold pview in P. injection P as P1 _ _ _ P5.
    destruct (pendingPromise (schedule cfg _)); cbn; exact P5.
  - unfold uview in U. cbn [lastArgs lastThis execs now awaiting inflight
      set_lastThis set_lastArgs] in U.
    injection U as U1 U2 U3 U4 U5 U6.
    unfold pview in P. injection P as _ _ _ _ P5.
    repeat split; assumption.
Qed.

(** ** The timers a call arms (lines 192-214) *)

Lemma tview_attachKeyListener (cfg : config) (s : state) :
  tview (attachKeyListener cfg s) = tview s.
Proof. unfold attachKeyListener. split_match; reflexivity. Qed.

Lemma tview_ensurePendingPromise (s : state) :
  tview (snd (ensurePendingPromise s)) = tview s.
Proof. unfold ensurePendingPromise. split_match; reflexivity. Qed.

Lemma without_none (l : list timer) : without None l = l.
Proof. unfold without, holds. cbn. apply filter_true. Qed.

Lemma timers_clearDelayTimer (s : state) :
  timers (clearDelayTimer s) = without (delayTimer s) (timers s).
Proof.
  unfold clearDelayTimer. destruct (delayTimer s) as [d |];
    [reflexivity | symmetry; apply without_none].
Qed.

Lemma schedule_tview_pending (cfg : config) (s : state) :
  hasPending s = true ->
  tview (schedule cfg s) =
  (without (delayTimer s) (timers s)
     ++ [mkTimer (nextId s) (now s + delay cfg) KTryRun],
   Some (nextId s), maxWaitTimer s, S (nextId s)).
Proof.
  intros Hp. cbv beta iota zeta delta [schedule setTimeout].
  rewrite tview_attachKeyListener, Hp. cbn [negb].
  unfold tview. cbn [timers delayTimer maxWaitTimer nextId set_delayTimer
    set_nextId set_timers].
  rewrite timers_clearDelayTimer.
  unfold clearDelayTimer. destruct (delayTimer s); reflexivity.
Qed.

Lemma schedule_tview_idle (cfg : config) (s : state) :
  hasPending s = false -> maxWaitEnabled cfg = None ->
  tview (schedule cfg s) =
  (without (delayTimer s) (timers s)
     ++ [mkTimer (nextId s) (now s + delay cfg) KTryRun],
   Some (nextId s), maxWaitTimer s, S (nextId s)).
Proof.
  intros Hp Hm. cbv beta iota zeta delta [schedule setTimeout].
  rewrite tview_attachKeyListener, Hp, Hm. cbn [negb].
  unfold tview. cbn [timers delayTimer maxWaitTimer nextId set_delayTimer
    set_nextId set_timers].
  rewrite timers_clearDelayTimer.
  unfold clearDelayTimer. cbn [delayTimer set_hasPending].
  destruct (delayTimer s); reflexivity.
Qed.

Lemma schedule_tview_arming (cfg : config) (w : Z) (s : state) :
  hasPending s = false -> maxWaitEnabled cfg = Some w ->
  tview (schedule cfg s) =
  (without (delayTimer s)
     (timers s ++ [mkTimer (nextId s) (now s + w) KMaxWait])
     ++ [mkTimer (S (nextId s)) (now s + delay cfg) KTryRun],
   Some (S (nextId s)), Some (nextId s), S (S (nextId s))).
Proof.
  intros Hp Hm. cbv beta iota zeta delta [schedule setTimeout].
  rewrite tview_attachKeyListener, Hp, Hm. cbn [negb].
  unfold tview. cbn [timers delayTimer maxWaitTimer nextId set_delayTimer
    set_nextId set_timers].
  rewrite timers_clearDelayTimer.
  unfold clearDelayTimer.
  cbn [delayTimer set_hasPending set_maxWaitTimer set_nextId set_timers].
  destruct (delayTimer s); reflexivity.
Qed.

Lemma tview_debounced (cfg : config) (this : value) (args : list value)
    (s : state) :
  tview (snd (debounced cfg this args s)) =
  tview (schedule cfg (set_lastThis this (set_lastArgs (Some args) s))).
Proof.
  rewrite snd_debounced. cbv zeta.
  destruct (isDeclaredAsyncFunction cfg); [| reflexivity].
  apply tview_ensurePendingPromise.
Qed.

Lemma in_without (o : option nat) (l : list timer) (t : timer) :
  In t (without o l) <-> In t l /\ holds o t = false.
Proof. unfold without. rewrite filter_In, negb_true_iff. tauto. Qed.

Lemma live_false (h : nat) (s : state) :
  (forall t, In t (timers s) -> tid t <> h) -> live h s = false.
Proof.
  intros H. unfold live. apply not_true_is_false. intros E.
  apply existsb_exists in E. destruct E as (t & Hin & Ht).
  apply Nat.eqb_eq in Ht. exact (H t Hin Ht).
Qed.

Lemma debounced_delay_timer (cfg : config) (this : value)
    (args : list value) (s : state) :
  exists h,
    delayTimer (snd (debounced cfg this args s)) = Some h /\
    In (mkTimer h (now s + delay cfg) KTryRun)
      (timers (snd (debounced cfg this args s))).
Proof.
  pose proof (tview_debounced cfg this args s) as T.
  assert (H : exists l h m,
            tview (schedule cfg
                     (set_lastThis this (set_lastArgs (Some args) s)))
            = (l ++ [mkTimer h (now s + delay cfg) KTryRun], Some h, m, S h)).
  { destruct (hasPending s) eqn:Hp;
      [| destruct (maxWaitEnabled cfg) as [w |] eqn:Em].
    - rewrite (schedule_tview_pending cfg) by exact Hp.
      eexists. eexists. eexists. reflexivity.
    - rewrite (schedule_tview_arming cfg w) by assumption.
      eexists. eexists. eexists. reflexivity.
    - rewrite (schedule_tview_idle cfg) by assumption.
      eexists. eexists. eexists. reflexivity. }
  destruct H as (l & h & m & H). rewrite H in T.
  unfold tview in T. injection T as T1 T2 _ _.
  exists h. rewrite T1, T2. split; [reflexivity |].
  apply in_or_app. right. now left.
Qed.

(** X4.  Every call re-arms the delay timer: the handle [delayTimer] held
    before is no longer live, [delayTimer] holds a fresh handle whose timer
    runs [tryRun] [delay] ms from now, and that is the only [tryRun] timer
    the call adds. *)
Theorem call_rearms_delay_timer (cfg : config) (this : value)
    (args : list value) (s : state) :
  reachable cfg s ->
  let s' := snd (debounced cfg this args s) in
  exists h,
    delayTimer s' = Some h /\ (nextId s <= h)%nat /\
    In (mkTimer h (now s + delay cfg) KTryRun) (timers s') /\
    (forall d, delayTimer s = Some d -> live d s' = false) /\
    (forall t, In t (timers s') -> kind t = KTryRun ->
       In t (timers s) \/ t = mkTimer h (now s + delay cfg) KTryRun).
Proof.
  intros Hr. pose proof (reachable_wf _ _ Hr) as W. cbv zeta.
  pose proof (tview_debounced cfg this args s) as T.
  assert (Hold : forall d t, delayTimer s = Some d ->
            In t (without (delayTimer s) (timers s)) -> tid t <> d).
  { intros d t Hd Ht. apply in_without in Ht. destruct Ht as [_ Ht].
    rewrite Hd in Ht. cbn in Ht. apply Nat.eqb_neq in Ht. exact Ht. }
  destruct (hasPending s) eqn:Hp; [| destruct (maxWaitEnabled cfg) as [w |] eqn:Em].
  - rewrite (schedule_tview_pending cfg) in T by exact Hp.
    unfold tview in T. cbn [timers delayTimer maxWaitTimer nextId now
      set_lastThis set_lastArgs] in T. injection T as T1 T2 T3 T4.
    exists (nextId s). rewrite T1, T2. repeat split.
    + lia.
    + apply in_or_app. right. now left.
    + intros d Hd. apply live_false. intros t Ht. rewrite T1 in Ht.
      apply in_app_or in Ht. destruct Ht as [Ht | [<- | []]].
      * now apply (Hold d t).
      * cbn. pose proof (wf_delay _ _ W d Hd). lia.
    + intros t Ht _. apply in_app_or in Ht. destruct Ht as [Ht | [<- | []]].
      * left. apply in_without in Ht. tauto.
      * right. reflexivity.
  - rewrite (schedule_tview_arming cfg w) in T by assumption.
    unfold tview in T. cbn [timers delayTimer maxWaitTimer nextId now
      set_lastThis set_lastArgs] in T. injection T as T1 T2 T3 T4.
    exists (S (nextId s)). rewrite T1, T2. repeat split.
    + lia.
    + apply in_or_app. right. now left.
    + intros d Hd. apply live_false. intros t Ht. rewrite T1 in Ht.
      pose proof (wf_delay _ _ W d Hd) as Hlt.
      apply in_app_or in Ht. destruct Ht as [Ht | [<- | []]].
      * apply in_without in Ht. destruct Ht as [_ Ht].
        rewrite Hd in Ht. cbn in Ht. apply Nat.eqb_neq in Ht. exact Ht.
      * cbn. lia.
    + intros t Ht Hk. apply in_app_or in Ht. destruct Ht as [Ht | [<- | []]].
      * left. apply in_without in Ht. destruct Ht as [Ht _].
        apply in_app_or in Ht. destruct Ht as [Ht | [<- | []]];
          [exact Ht | discriminate Hk].
      * right. reflexivity.
  - rewrite (schedule_tview_idle cfg) in T by assumption.
    unfold tview in T. cbn [timers delayTimer maxWaitTimer nextId now
      set_lastThis set_lastArgs] in T. injection T as T1 T2 T3 T4.
    exists (nextId s). rewrite T1, T2. repeat split.
    + lia.
    + apply in_or_app. right. now left.
    + intros d Hd. apply live_false. intros t Ht. rewrite T1 in Ht.
      apply in_app_or in Ht. destruct Ht as [Ht | [<- | []]].
      * now apply (Hold d t).
      * cbn. pose proof (wf_delay _ _ W d Hd). lia.
    + intros t Ht _. apply in_app_or in Ht. destruct Ht as [Ht | [<- | []]].
      * left. apply in_without in Ht. tauto.
      * right. reflexivity.
Qed.

(** X5.  Only the call that finds Pending State false arms the max-wait
    timer, and only when [maxWait] is enabled: it is then due [maxWait] ms
    from that call.  A call that finds Pending State true leaves
    [maxWaitTimer] as it is, adds no max-wait timer and removes no timer but
    the one [delayTimer] names. *)
Theorem max_wait_armed_by_first_call_only (cfg : config) (this : value)
    (args : list value) (s : state) :
  reachable cfg s ->
  let s' := snd (debounced cfg this args s) in
  (pending s = true ->
     maxWaitTimer s' = maxWaitTimer s /\
     (forall t, In t (timers s') -> kind t = KMaxWait -> In t (timers s)) /\
     (forall t, In t (timers s) -> holds (delayTimer s) t = false ->
        In t (timers s'))) /\
  (pending s = false ->
     match maxWaitEnabled cfg with
     | Some w =>
         maxWaitTimer s' = Some (nextId s) /\
         In (mkTimer (nextId s) (now s + w) KMaxWait) (timers s') /\
         (forall t, In t (timers s') -> kind t = KMaxWait ->
            In t (timers s) \/ t = mkTimer (nextId s) (now s + w) KMaxWait)
     | None =>
         maxWaitTimer s' = maxWaitTimer s /\
         (forall t, In t (timers s') -> kind t = KMaxWait -> In t (timers s))
     end).
Proof.
  intros Hr. pose proof (reachable_wf _ _ Hr) as W. cbv zeta. unfold pending.
  pose proof (tview_debounced cfg this args s) as T.
  split; intros Hp.
  - rewrite (schedule_tview_pending cfg) in T by exact Hp.
    unfold tview in T. cbn [timers delayTimer maxWaitTimer nextId now
      set_lastThis set_lastArgs] in T. injection T as T1 T2 T3 T4.
    rewrite T1, T3. repeat split.
    + intros t Ht Hk. apply in_app_or in Ht.
      destruct Ht as [Ht | [<- | []]]; [| discriminate Hk].
      apply in_without in Ht. tauto.
    + intros t Ht Hh. apply in_or_app. left. apply in_without. tauto.
  - destruct (maxWaitEnabled cfg) as [w |] eqn:Em.
    + rewrite (schedule_tview_arming cfg w) in T by assumption.
      unfold tview in T. cbn [timers delayTimer maxWaitTimer nextId now
        set_lastThis set_lastArgs] in T. injection T as T1 T2 T3 T4.
      rewrite T1, T3. repeat split.
      * apply in_or_app. left. apply in_without. split.
        -- apply in_or_app. right. now left.
        -- unfold holds. destruct (delayTimer s) as [d |] eqn:Ed;
             [| reflexivity].
           cbn. apply Nat.eqb_neq. pose proof (wf_delay _ _ W d Ed). lia.
      * intros t Ht Hk. apply in_app_or in Ht.
        destruct Ht as [Ht | [<- | []]]; [| discriminate Hk].
        apply in_without in Ht. destruct Ht as [Ht _].
        apply in_app_or in Ht. destruct Ht as [Ht | [<- | []]];
          [left; exact Ht | right; reflexivity].
    + rewrite (schedule_tview_idle cfg) in T by assumption.
      unfold tview in T. cbn [timers delayTimer maxWaitTimer nextId now
        set_lastThis set_lastArgs] in T. injection T as T1 T2 T3 T4.
      rewrite T1, T3. repeat split.
      intros t Ht Hk. apply in_app_or in Ht.
      destruct Ht as [Ht | [<- | []]]; [| discriminate Hk].
      apply in_without in Ht. tauto.
Qed.

(** ** Resolving a burst (lines 142-146, 218-222, 236-242) *)

Lemma nview_rejectOutstanding (err : value) (s : state) :
  nview (rejectOutstanding err s) = nview s.
Proof. unfold rejectOutstanding. cbv zeta. split_match; reflexivity. Qed.

Lemma nview_resolveOutstanding (val : value) (s : state) :
  nview (resolveOutstanding val s) = nview s.
Proof. unfold resolveOutstanding. cbv zeta. split_match; reflexivity. Qed.

Lemma nview_ensurePendingPromise (s : state) :
  nview (snd (ensurePendingPromise s)) = nview s.
Proof. unfold ensurePendingPromise. split_match; reflexivity. Qed.

Lemma detached_effect (s : state) :
  nview (detached s) =
  (false, None, VNull, execs s, now s, awaiting s, inflight s,
   (without (maxWaitTimer s) (without (delayTimer s) (timers s)),
    None, None, nextId s),
   (None,
    match removeKeyListener s with
    | Some h => filter (fun h' => negb (Nat.eqb h' h)) (listeners s)
    | None => listeners s
    end,
    nextHandler s)) /\
  pview (detached s) = pview s.
Proof.
  open_state s. destruct dT, mT, rKL; unfold without, holds; cbn;
    rewrite ?filter_true; split; reflexivity.
Qed.

Lemma cancel_pending (s : state) :
  hasPending s = true ->
  cancel s = rejectOutstanding DebounceCancelledError (detached s).
Proof. intros H. unfold cancel. rewrite H. reflexivity. Qed.

Lemma in_without_tracked (s : state) (t : timer) :
  In t (without (maxWaitTimer s) (without (delayTimer s) (timers s))) <->
  In t (timers s) /\ ~ tracked s t.
Proof.
  rewrite !in_without. unfold tracked, holds.
  destruct (delayTimer s) as [d |], (maxWaitTimer s) as [m |];
    rewrite ?Nat.eqb_neq; intuition congruence.
Qed.

Lemma cleanup_listeners (cfg : config) (s : state) :
  wf cfg s ->
  match removeKeyListener s with
  | Some h => filter (fun h' => negb (Nat.eqb h' h)) (listeners s)
  | None => listeners s
  end = [].
Proof.
  intros W. pose proof (wf_registry _ _ W) as Hl.
  destruct (removeKeyListener s) as [h |]; [| exact Hl].
  rewrite Hl. cbn. rewrite Nat.eqb_refl. reflexivity.
Qed.

(** X6.  [cancel()] on a pending call: Pending State becomes false, the
    Invocation Record and both timer variables are null, exactly the timers
    the closure held handles of are gone, the key listener is removed, the
    outstanding promise (if any) is rejected with DebounceCancelledError and
    forgotten, the operation is not run, and a second [cancel()] changes
    nothing. *)
Theorem cancel_clears_pending_call (cfg : config) (s : state) :
  reachable cfg s -> pending s = true ->
  let s' := cancel s in
  pending s' = false /\ lastArgs s' = None /\ lastThis s' = VNull /\
  delayTimer s' = None /\ maxWaitTimer s' = None /\
  (forall t, In t (timers s') <-> In t (timers s) /\ ~ tracked s t) /\
  removeKeyListener s' = None /\ listeners s' = [] /\
  pendingPromise s' = None /\ resolvePending s' = None /\
  rejectPending s' = None /\
  (forall p, pendingPromise s = Some p ->
     settled s' = settled s ++ [(p, Rejected DebounceCancelledError)]) /\
  (pendingPromise s = None -> settled s' = settled s) /\
  execs s' = execs s /\ cancel s' = s'.
Proof.
  intros Hr Hp. unfold pending in Hp. cbv zeta.
  pose proof (reachable_wf _ _ Hr) as W.
  destruct (reachable_promise_inv _ _ Hr) as (_ & Hrj & _).
  assert (Hc : cancel (cancel s) = cancel s) by apply cancel_idempotent.
  rewrite (cancel_pending s Hp) in *.
  pose proof (nview_rejectOutstanding DebounceCancelledError (detached s))
    as N.
  destruct (detached_effect s) as [D P].
  rewrite D in N. unfold nview, tview, lview in N.
  injection N as N1 N2 N3 N4 N5 N6 N7 N8 N9 N10 N11 N12 N13 N14.
  pose proof (pview_reject_congr DebounceCancelledError _ _ P) as Q.
  unfold pview in Q. injection Q as Q1 Q2 Q3 Q4 Q5.
  unfold pending. rewrite N1, N2, N3, N4, N8, N9, N10, N12, N13, Q1, Q2, Q3, Q5.
  assert (Hs : forall o,
            rejectPending s = o ->
            settled (rejectOutstanding DebounceCancelledError s) =
            match o with
            | Some p => settled s ++ [(p, Rejected DebounceCancelledError)]
            | None => settled s
            end).
  { intros o <-. unfold rejectOutstanding. cbv zeta.
    destruct (rejectPending s); reflexivity. }
  assert (Hv : pendingPromise (rejectOutstanding DebounceCancelledError s)
               = None /\
               resolvePending (rejectOutstanding DebounceCancelledError s)
               = None /\
               rejectPending (rejectOutstanding DebounceCancelledError s)
               = None).
  { unfold rejectOutstanding. cbv zeta. destruct (rejectPending s);
      repeat split; reflexivity. }
  destruct Hv as (V1 & V2 & V3).
  do 5 (split; [reflexivity |]).
  split; [apply in_without_tracked |].
  split; [reflexivity |].
  split; [apply (cleanup_listeners cfg s W) |].
  do 3 (split; [assumption |]).
  split; [intros p Hpp; rewrite (Hs (Some p)); [reflexivity | congruence] |].
  split; [intros Hpp; rewrite (Hs None); [reflexivity | congruence] |].
  split; [reflexivity | exact Hc].
Qed.

(** ** The max-wait callback (lines 196-204) *)

Lemma maxWaitFired_idle (s : state) :
  hasPending s = false -> maxWaitFired s = s.
Proof. intros H. unfold maxWaitFired. rewrite H. reflexivity. Qed.

Lemma maxWaitFired_effect (s : state) :
  hasPending s = true ->
  nview (maxWaitFired s) =
  (true, lastArgs s, lastThis s, execs s, now s, awaiting s, inflight s,
   (without (delayTimer s) (timers s)
      ++ [mkTimer (nextId s) (now s + 0) KTryRun],
    Some (nextId s), maxWaitTimer s, S (nextId s)),
   lview s) /\
  pview (maxWaitFired s) = pview s.
Proof.
  intros H. split; [| apply pview_maxWaitFired].
  unfold maxWaitFired. rewrite H.
  cbv beta iota zeta delta [setTimeout].
  unfold nview, tview, lview.
  cbn [hasPending lastArgs lastThis execs now awaiting inflight timers
       delayTimer maxWaitTimer nextId removeKeyListener listeners nextHandler
       set_delayTimer set_nextId set_timers].
  rewrite timers_clearDelayTimer.
  unfold clearDelayTimer. destruct (delayTimer s); cbn; rewrite H; reflexivity.
Qed.

(** ** The key listener (lines 86-105) *)

Lemma nview_fields (s s' : state) :
  nview s' = nview s ->
  hasPending s' = hasPending s /\ removeKeyListener s' = removeKeyListener s.
Proof.
  unfold nview, lview. intros E.
  injection E as E1 _ _ _ _ _ _ _ E2 _ _. split; assumption.
Qed.

Lemma removeKeyListener_detached (s : state) :
  removeKeyListener (detached s) = None.
Proof.
  destruct (detached_effect s) as [D _]. unfold nview, lview in D.
  injection D as _ _ _ _ _ _ _ _ D _ _. exact D.
Qed.

Lemma cancel_listener (s : state) : listener_step s (cancel s).
Proof.
  destruct (hasPending s) eqn:Hp.
  - right; right. rewrite (cancel_pending s Hp).
    destruct (nview_fields _ _ (nview_rejectOutstanding
                                  DebounceCancelledError (detached s)))
      as [_ E].
    rewrite E. apply removeKeyListener_detached.
  - left. rewrite (cancel_not_pending s Hp). split; reflexivity.
Qed.

Lemma tryRun_run_listener (f : fn_outcome) (s : state) :
  listener_step s (tryRun_run f s).
Proof.
  right; right.
  destruct (tryRun_run_effect f s) as (_ & _ & _ & _ & _ & _ & E & _).
  exact E.
Qed.

Lemma tryRun_checked_listener (cfg : config) (ok : bool) (f : fn_outcome)
    (s : state) :
  listener_step s (tryRun_checked cfg ok f s).
Proof.
  unfold tryRun_checked. destruct ok; [apply tryRun_run_listener |].
  left. split; reflexivity.
Qed.

Lemma tryRun_listener (cfg : config) (c : cond_outcome) (f : fn_outcome)
    (s : state) :
  listener_step s (tryRun cfg c f s).
Proof.
  unfold tryRun. destruct (condition cfg); [| apply tryRun_run_listener].
  destruct c as [ok | err |].
  - apply tryRun_checked_listener.
  - left. apply nview_fields, nview_rejectOutstanding.
  - left. split; reflexivity.
Qed.

Lemma listener_step_from (s0 s s' : state) :
  hasPending s0 = hasPending s ->
  removeKeyListener s0 = removeKeyListener s ->
  listener_step s0 s' -> listener_step s s'.
Proof.
  intros E1 E2 [[H1 H2] | [H | H]].
  - left. split; congruence.
  - right; left. exact H.
  - right; right. exact H.
Qed.

Lemma flush_listener (cfg : config) (c : cond_outcome) (f : fn_outcome)
    (s : state) :
  listener_step s (snd (flush cfg c f s)).
Proof.
  unfold flush.
  destruct (hasPending s) eqn:Hp; [| left; split; reflexivity].
  destruct (lastArgs s) as [args |];
    [| left; split; reflexivity].
  cbv zeta.
  assert (D : forall X : state,
            hasPending X = hasPending s ->
            removeKeyListener X = removeKeyListener s ->
            listener_step s (snd (setTimeout KTryRun 0 X))).
  { intros X E1 E2. left. split; [rewrite <- E1 | rewrite <- E2];
      reflexivity. }
  assert (E : nview (clearMaxWaitTimer (clearDelayTimer s)) =
              (hasPending s, lastArgs s, lastThis s, execs s, now s,
               awaiting s, inflight s,
               tview (clearMaxWaitTimer (clearDelayTimer s)), lview s)).
  { unfold clearMaxWaitTimer, clearDelayTimer.
    destruct (delayTimer s); cbn [maxWaitTimer set_delayTimer clearTimeout
      set_timers]; destruct (maxWaitTimer s); reflexivity. }
  assert (E' : hasPending (clearMaxWaitTimer (clearDelayTimer s))
               = hasPending s /\
               removeKeyListener (clearMaxWaitTimer (clearDelayTimer s))
               = removeKeyListener s).
  { unfold nview, lview in E. injection E as E1 _ _ _ _ _ _ E2 _ _.
    split; assumption. }
  assert (Hdef :
    listener_step s
      (snd (if isDeclaredAsyncFunction cfg
            then
              let (p, s0) :=
                ensurePendingPromise (clearMaxWaitTimer (clearDelayTimer s)) in
              let (_, s1) := setTimeout KTryRun 0 s0 in
              (ReturnResultPromise p, s1)
            else
              let (_, s0) :=
                setTimeout KTryRun 0 (clearMaxWaitTimer (clearDelayTimer s)) in
              (Return VUndefined, s0)))).
  { destruct (isDeclaredAsyncFunction cfg).
    - destruct (nview_fields _ _ (nview_ensurePendingPromise
                  (clearMaxWaitTimer (clearDelayTimer s)))) as [F1 F2].
      destruct (ensurePendingPromise (clearMaxWaitTimer (clearDelayTimer s)))
        as [p s0]. cbn [snd] in *.
      apply (D s0); [rewrite F1 | rewrite F2]; apply E'.
    - apply (D (clearMaxWaitTimer (clearDelayTimer s))); apply E'. }
  assert (Hsync : forall k e,
    listener_step s
      (snd (match f with
            | FReturn v => (Return v, set_execs e (detached s))
            | FThrow err => (Throw err, set_execs e (detached s))
            | FPromise => (ReturnOpPromise k, set_execs e (detached s))
            end))).
  { intros k e. right; right. destruct f; cbn [snd];
      apply removeKeyListener_detached. }
  destruct (isDeclaredAsyncFunction cfg) eqn:Ea; [exact Hdef |].
  destruct (negb (condition cfg)); [apply Hsync |].
  destruct c as [[] | err |];
    [apply Hsync | exact Hdef
    | left; split; reflexivity | exact Hdef].
Qed.

Lemma step_listener (cfg : config) (ev : event) (s s' : state)
    (r : completion) :
  step cfg ev s = Some (r, s') -> listener_step s s'.
Proof.
  destruct ev; cbn [step].
  - intros E. injection E as E. right; left.
    pose proof (hasPending_debounced cfg this args s) as H.
    rewrite E in H. exact H.
  - intros E. injection E as _ <-. apply cancel_listener.
  - intros E. injection E as E.
    pose proof (flush_listener cfg c f s) as H. rewrite E in H. exact H.
  - intros E. injection E as _ <-.
    destruct (keydown_cases cfg key s) as [-> | ->];
      [left; split; reflexivity | apply cancel_listener].
  - destruct (can_wait dt s); [| discriminate].
    intros E. injection E as _ <-. left. split; reflexivity.
  - destruct (find_timer h s) as [t |]; [| discriminate].
    destruct (due t <=? now s); [| discriminate].
    intros E. injection E as _ <-. destruct (kind t).
    + apply (listener_step_from (clearTimeout h s)); try reflexivity.
      apply tryRun_listener.
    + destruct (hasPending s) eqn:Hp.
      * right; left.
        destruct (maxWaitFired_effect (clearTimeout h s) Hp) as [N _].
        unfold nview in N. injection N as N _. exact N.
      * left. rewrite maxWaitFired_idle by exact Hp. split; reflexivity.
  - destruct (awaiting s); [discriminate |].
    intros E. injection E as _ <-. unfold tryRun_resume. cbv zeta.
    apply (listener_step_from (set_awaiting (pred (awaiting s)) s));
      try reflexivity.
    destruct r0 as [ok | err].
    + apply tryRun_checked_listener.
    + left. apply nview_fields, nview_rejectOutstanding.
  - destruct (existsb (Nat.eqb k) (inflight s)); [| discriminate].
    intros E. injection E as _ <-.
    apply (listener_step_from (set_inflight (remove_first k (inflight s)) s));
      try reflexivity.
    left. destruct r0; cbn [opSettled]; apply nview_fields;
      [apply nview_resolveOutstanding | apply nview_rejectOutstanding].
Qed.

(** X7.  At most one keydown listener is registered at any time; one is
    registered only while a call is pending, in a browser and with a
    non-empty [cancelOn]; and under those three conditions one is always
    registered. *)
Theorem key_listener_held_only_while_pending (cfg : config) (s : state) :
  reachable cfg s ->
  (List.length (listeners s) <= 1)%nat /\
  (listeners s <> [] ->
     pending s = true /\ isBrowser cfg = true /\
     truthyKey (cancelKey cfg) = true) /\
  (pending s = true -> isBrowser cfg = true ->
     truthyKey (cancelKey cfg) = true ->
     exists h, listeners s = [h] /\ removeKeyListener s = Some h).
Proof.
  intros Hr. pose proof (reachable_wf _ _ Hr) as W.
  pose proof (wf_registry _ _ W) as Hl.
  assert (Hheld : removeKeyListener s <> None -> hasPending s = true).
  { revert s Hr W Hl. apply (reachable_induction cfg
      (fun s => wf cfg s ->
                listeners s = match removeKeyListener s with
                              | Some h => [h] | None => [] end ->
                removeKeyListener s <> None -> hasPending s = true)).
    - intros _ _ H. exfalso. apply H. reflexivity.
    - intros s0 ev r s1 Hr0 IH E _ _ Hne.
      pose proof (reachable_wf _ _ Hr0) as W0.
      specialize (IH W0 (wf_registry _ _ W0)).
      destruct (step_listener _ _ _ _ _ E) as [[H1 H2] | [H | H]].
      + rewrite H1. apply IH. congruence.
      + exact H.
      + congruence. }
  split; [| split].
  - rewrite Hl. destruct (removeKeyListener s); cbn; lia.
  - intros Hne. unfold pending.
    assert (Hk : removeKeyListener s <> None).
    { intros Hk. rewrite Hk in Hl. contradiction. }
    split; [apply Hheld, Hk |].
    apply (wf_attached _ _ W).
    destruct (removeKeyListener s); [reflexivity | contradiction].
  - intros Hp Hb Hk. unfold pending in Hp.
    pose proof (wf_subscribed _ _ W Hp Hb Hk) as Hs.
    destruct (removeKeyListener s) as [h |]; [| discriminate Hs].
    exists h. split; [exact Hl | reflexivity].
Qed.


(** ** Pending State and the delay timer, without condition or async *)

Lemma live_true (h : nat) (s : state) (t : timer) :
  In t (timers s) -> tid t = h -> live h s = true.
Proof.
  intros Hin Ht. unfold live. apply existsb_exists. exists t.
  split; [exact Hin | apply Nat.eqb_eq, Ht].
Qed.

Lemma nview_timer_fields (s s' : state) :
  nview s' = nview s ->
  hasPending s' = hasPending s /\ timers s' = timers s /\
  delayTimer s' = delayTimer s.
Proof.
  unfold nview, tview. intros E.
  injection E as E1 _ _ _ _ _ _ E2 E3 _ _ _ _ _. repeat split; assumption.
Qed.

Lemma step_plain_live (cfg : config) (ev : event) (s s' : state)
    (r : completion) :
  isDeclaredAsyncFunction cfg = false -> condition cfg = false ->
  reachable cfg s ->
  (hasPending s = true -> delay_timer_live s) ->
  step cfg ev s = Some (r, s') ->
  hasPending s' = true -> delay_timer_live s'.
Proof.
  intros Ha Hc Hr IH. pose proof (reachable_wf _ _ Hr) as W.
  destruct ev; cbn [step].
  - intros E _. injection E as E.
    pose proof (debounced_delay_timer cfg this args s) as H.
    rewrite E in H. cbn [snd] in H.
    destruct H as (h & Hd & Hin). exists h. split; [exact Hd |].
    apply (live_true h s' _ Hin). reflexivity.
  - intros E Hp. injection E as _ <-. rewrite hasPending_cancel in Hp.
    discriminate Hp.
  - intros E Hp. injection E as E.
    destruct (hasPending s) eqn:Hps.
    + pose proof (wf_args _ _ W Hps) as Hargs.
      destruct (lastArgs s) as [args |] eqn:Eargs; [| discriminate Hargs].
      destruct (flush_sync_effect cfg c f s args Hps Eargs Ha (or_introl Hc))
        as (_ & _ & H & _).
      rewrite E in H. cbn [snd] in H. congruence.
    + rewrite flush_not_pending in E by exact Hps. injection E as _ <-.
      congruence.
  - intros E Hp. injection E as _ <-.
    destruct (keydown_cases cfg key s) as [E | E]; rewrite E in *.
    + apply IH, Hp.
    + rewrite hasPending_cancel in Hp. discriminate Hp.
  - destruct (can_wait dt s); [| discriminate].
    intros E Hp. injection E as _ <-. apply IH, Hp.
  - destruct (find_timer h s) as [t |]; [| discriminate].
    destruct (due t <=? now s); [| discriminate].
    intros E Hp. injection E as _ <-. destruct (kind t).
    + unfold tryRun in Hp. rewrite Hc in Hp.
      destruct (tryRun_run_effect f (clearTimeout h s)) as (_ & H & _).
      congruence.
    + destruct (hasPending s) eqn:Hps.
      * destruct (maxWaitFired_effect (clearTimeout h s) Hps) as [N _].
        unfold nview, tview in N.
        injection N as _ _ _ _ _ _ _ N1 N2 _ _ _.
        exists (nextId s). split; [exact N2 |].
        apply (live_true _ _ (mkTimer (nextId s) (now s + 0) KTryRun));
          [| reflexivity].
        rewrite N1. apply in_or_app. right. now left.
      * rewrite maxWaitFired_idle in Hp by exact Hps. cbn in Hp. congruence.
  - destruct (wf_plain _ _ W Ha Hc) as (_ & _ & Haw). rewrite Haw.
    discriminate.
  - destruct (existsb (Nat.eqb k) (inflight s)); [| discriminate].
    intros E Hp. injection E as _ <-.
    assert (N : hasPending
                  (opSettled r0 (set_inflight (remove_first k (inflight s)) s))
                = hasPending s /\
                timers
                  (opSettled r0 (set_inflight (remove_first k (inflight s)) s))
                = timers s /\
                delayTimer
                  (opSettled r0 (set_inflight (remove_first k (inflight s)) s))
                = delayTimer s).
    { destruct r0; cbn [opSettled].
      - apply (nview_timer_fields
                 (set_inflight (remove_first k (inflight s)) s)).
        apply nview_resolveOutstanding.
      - apply (nview_timer_fields
                 (set_inflight (remove_first k (inflight s)) s)).
        apply nview_rejectOutstanding. }
    destruct N as (N1 & N2 & N3). rewrite N1 in Hp.
    destruct (IH Hp) as (d & Hd & Hl). exists d.
    split; [congruence |]. unfold live in *. rewrite N2. exact Hl.
Qed.

(** X8.  For an operation not declared [async] and without a condition,
    in every reachable state: [pending()] is true exactly when [delayTimer]
    holds the handle of a live timer, no attempt is ever suspended, and every
    live timer is one the closure holds the handle of. *)
Theorem pending_iff_delay_timer_live_without_condition (cfg : config)
    (s : state) :
  isDeclaredAsyncFunction cfg = false -> condition cfg = false ->
  reachable cfg s ->
  (pending s = true <-> exists h, delayTimer s = Some h /\ live h s = true) /\
  awaiting s = 0%nat /\
  (forall t, In t (timers s) -> tracked s t).
Proof.
  intros Ha Hc Hr. pose proof (reachable_wf _ _ Hr) as W.
  destruct (wf_plain _ _ W Ha Hc) as (Hidle & Htr & Haw).
  split; [| split; assumption].
  unfold pending. split.
  - revert s Hr W Hidle Htr Haw.
    apply (reachable_induction cfg
             (fun s => wf cfg s -> _ -> _ -> _ ->
                       hasPending s = true -> delay_timer_live s)).
    + intros _ _ _ _ H. discriminate H.
    + intros s0 ev r s1 Hr0 IH E _ _ _ _.
      pose proof (reachable_wf _ _ Hr0) as W0.
      destruct (wf_plain _ _ W0 Ha Hc) as (I0 & T0 & A0).
      apply (step_plain_live cfg ev s0 s1 r Ha Hc Hr0); [| exact E].
      apply IH; assumption.
  - intros (h & Hd & Hl). destruct (hasPending s) eqn:Hp; [reflexivity |].
    unfold live in Hl. apply existsb_exists in Hl.
    destruct Hl as (t & Hin & _). exfalso. exact (Hidle eq_refl t Hin).
Qed.


(** ** The max-wait deadline forces a run *)




(** ** Polling a false condition *)

Lemma in_burst_due_can_wait (cfg : config) (mwdue ddue : Z)
    (log : list exec) (c : call) (s : state) :
  in_burst_due cfg mwdue ddue log c s ->
  maxWaitEnabled cfg = None -> now s <= ddue ->
  can_wait (ddue - now s) s = true.
Proof.
  intros (_ & _ & _ & _ & h & _ & _ & Hq) Hm Hd. rewrite Hm in Hq.
  unfold can_wait. rewrite Hq. cbn [forallb due].
  rewrite !andb_true_iff, !Z.leb_le. lia.
Qed.

Lemma poll_false (cfg : config) (mwdue ddue : Z) (log : list exec)
    (c : call) (f : fn_outcome) (s : state) (h : nat) :
  in_burst_due cfg mwdue ddue log c s ->
  delayTimer s = Some h ->
  maxWaitEnabled cfg = None -> condition cfg = true -> now s <= ddue ->
  exists s',
    run cfg [Wait (ddue - now s); Fire h (CReturn false) f] s = Some s' /\
    in_burst_due cfg mwdue (ddue + Z.max 10 (delay cfg)) log c s' /\
    now s' = ddue /\ delayTimer s' = Some (nextId s) /\
    nextId s' = S (nextId s).
Proof.
  intros Hb Hdt Hm Hc Hd.
  pose proof (in_burst_due_can_wait _ _ _ _ _ _ Hb Hm Hd) as Hw.
  destruct Hb as (Hp & He & Ha & Ht & h' & Hdt' & Hh & Hq).
  rewrite Hdt in Hdt'. injection Hdt' as <-. rewrite Hm in Hq.
  set (sa := set_now (now s + (ddue - now s)) s).
  assert (Hf : find_timer h sa = Some (mkTimer h ddue KTryRun)).
  { unfold find_timer. cbn [timers sa set_now]. rewrite Hq.
    cbn [find tid]. rewrite Nat.eqb_refl. reflexivity. }
  exists (tryRun_retry cfg (clearTimeout h sa)).
  split.
  { rewrite run_wait by exact Hw. fold sa.
    rewrite (run_fire _ _ _ _ _ _ _ Hf) by (apply Z.leb_le; cbn; lia).
    cbn [kind run]. unfold tryRun, tryRun_checked. rewrite Hc. reflexivity. }
  unfold in_burst_due, tryRun_retry. cbv beta iota zeta delta [setTimeout].
  cbn [hasPending execs lastArgs lastThis delayTimer nextId timers now
       maxWaitTimer set_delayTimer set_nextId set_timers clearTimeout sa
       set_now].
  rewrite Hm, Hq. cbn [filter tid]. rewrite Nat.eqb_refl. cbn [negb app].
  repeat split; try assumption; try lia.
  exists (nextId s). repeat split; try lia.
  repeat f_equal. lia.
Qed.

Lemma poll_true (cfg : config) (mwdue ddue : Z) (log : list exec)
    (c : call) (f : fn_outcome) (s : state) (h : nat) :
  in_burst_due cfg mwdue ddue log c s ->
  delayTimer s = Some h ->
  maxWaitEnabled cfg = None -> now s <= ddue ->
  exists s',
    run cfg [Wait (ddue - now s); Fire h (CReturn true) f] s = Some s' /\
    execs s' = log ++ [mkExec ddue (fst c) (Some (snd c))] /\
    hasPending s' = false /\ timers s' = [] /\ lastArgs s' = None.
Proof.
  intros Hb Hdt Hm Hd.
  pose proof (in_burst_due_can_wait _ _ _ _ _ _ Hb Hm Hd) as Hw.
  destruct Hb as (Hp & He & Ha & Ht & h' & Hdt' & Hh & Hq).
  rewrite Hdt in Hdt'. injection Hdt' as <-. rewrite Hm in Hq.
  set (sa := set_now (now s + (ddue - now s)) s).
  assert (Hf : find_timer h sa = Some (mkTimer h ddue KTryRun)).
  { unfold find_timer. cbn [timers sa set_now]. rewrite Hq.
    cbn [find tid]. rewrite Nat.eqb_refl. reflexivity. }
  exists (tryRun_run f (clearTimeout h sa)).
  split.
  { rewrite run_wait by exact Hw. fold sa.
    rewrite (run_fire _ _ _ _ _ _ _ Hf) by (apply Z.leb_le; cbn; lia).
    cbn [kind run]. rewrite tryRun_passes by (intros _; reflexivity).
    reflexivity. }
  destruct (tryRun_run_effect f (clearTimeout h sa))
    as (E1 & E2 & E3 & _ & _ & _ & _ & E4 & _).
  rewrite E1, E2, E3, E4, timers_clearTimers.
  cbn [execs now lastThis lastArgs timers delayTimer maxWaitTimer
       clearTimeout set_timers sa set_now].
  rewrite He, Ha, Ht, Hq, Hdt.
  repeat split.
  - repeat f_equal. lia.
  - cbn [filter tid holds negb]. rewrite Nat.eqb_refl. reflexivity.
Qed.

Lemma polling_in_burst (cfg : config) (mwdue : Z) (log : list exec)
    (c : call) (f : fn_outcome) (k : nat) :
  maxWaitEnabled cfg = None -> condition cfg = true ->
  forall (s : state) (h : nat) (ddue : Z),
  in_burst_due cfg mwdue ddue log c s ->
  delayTimer s = Some h -> now s <= ddue ->
  exists s',
    run cfg (poll_events k h (nextId s) (ddue - now s)
               (Z.max 10 (delay cfg)) f) s = Some s' /\
    execs s' =
      log ++ [mkExec (ddue + Z.of_nat k * Z.max 10 (delay cfg))
                (fst c) (Some (snd c))] /\
    hasPending s' = false /\ timers s' = [] /\ lastArgs s' = None.
Proof.
  intros Hm Hc. induction k as [| k IH]; intros s h ddue Hb Hdt Hd.
  - destruct (poll_true cfg mwdue ddue log c f s h Hb Hdt Hm Hd)
      as (s' & Hrun & He & Hrest).
    exists s'. split; [exact Hrun |]. split; [| exact Hrest].
    rewrite He. repeat f_equal. lia.
  - destruct (poll_false cfg mwdue ddue log c f s h Hb Hdt Hm Hc Hd)
      as (s1 & Hrun & Hb1 & Hn1 & Hdt1 & Hid1).
    destruct (IH s1 (nextId s) (ddue + Z.max 10 (delay cfg)) Hb1 Hdt1)
      as (s2 & Hrun2 & He2 & Hrest); [lia |].
    exists s2. split; [| split; [| exact Hrest]].
    + cbn [poll_events].
      change (Wait (ddue - now s) :: Fire h (CReturn false) f ::
              poll_events k (nextId s) (S (nextId s))
                (Z.max 10 (delay cfg)) (Z.max 10 (delay cfg)) f)
        with ([Wait (ddue - now s); Fire h (CReturn false) f] ++
              poll_events k (nextId s) (S (nextId s))
                (Z.max 10 (delay cfg)) (Z.max 10 (delay cfg)) f).
      rewrite run_app, Hrun. rewrite Hid1, Hn1 in Hrun2.
      replace (ddue + Z.max 10 (delay cfg) - ddue)
        with (Z.max 10 (delay cfg)) in Hrun2 by lia.
      exact Hrun2.
    + rewrite He2.
      replace (ddue + Z.max 10 (delay cfg)
               + Z.of_nat k * Z.max 10 (delay cfg))
        with (ddue + Z.of_nat (S k) * Z.max 10 (delay cfg))
        by (rewrite Nat2Z.inj_succ; ring).
      reflexivity.
Qed.

(** X10.  With a condition and no max-wait bound: if the condition answers
    false at the first [k] attempts after a burst and true at the next one,
    the operation runs once, with the last call's arguments, [delay]
    plus [k] times [max(10, delay)] ms after the last call. *)
Theorem operation_runs_when_condition_turns_true (cfg : config) (s0 : state)
    (first : call) (rest : list (Z * call)) (k : nat) (f : fn_outcome) :
  reachable cfg s0 -> quiet s0 -> 0 <= delay cfg ->
  Forall (fun gc => 0 <= fst gc < delay cfg) rest ->
  maxWaitEnabled cfg = None -> condition cfg = true ->
  exists s1 h s2,
    run cfg (burst first rest) s0 = Some s1 /\
    delayTimer s1 = Some h /\
    run cfg (poll_events k h (nextId s1) (delay cfg)
               (Z.max 10 (delay cfg)) f) s1 = Some s2 /\
    execs s2 =
      execs s0 ++
      [mkExec (now s0 + span rest + delay cfg
               + Z.of_nat k * Z.max 10 (delay cfg))
         (fst (last_call first rest)) (Some (snd (last_call first rest)))] /\
    hasPending s2 = false /\ timers s2 = [] /\ lastArgs s2 = None.
Proof.
  intros Hr Hq Hd Hg Hm Hc.
  pose proof (reachable_wf _ _ Hr) as W.
  destruct (first_call_in_burst cfg first s0 W Hq) as [Hb Hn].
  destruct (burst_tail_in_burst cfg _ _ rest first _ Hb Hg)
    as (s1 & Hrun & Hb1 & Hn1).
  { intros E. congruence. }
  assert (Hdt : exists h, delayTimer s1 = Some h).
  { destruct Hb1 as (_ & _ & _ & _ & h & Hdt & _). exists h. exact Hdt. }
  destruct Hdt as [h Hdt].
  destruct (polling_in_burst cfg _ _ _ f k Hm Hc s1 h
              (now s1 + delay cfg) Hb1 Hdt) as (s2 & Hrun2 & He2 & Hrest);
    [lia |].
  exists s1, h, s2. unfold burst. rewrite run_call.
  split; [exact Hrun |]. split; [exact Hdt |].
  replace (now s1 + delay cfg - now s1) with (delay cfg) in Hrun2 by lia.
  split; [exact Hrun2 |]. split; [| exact Hrest].
  rewrite He2, Hn1, Hn. reflexivity.
Qed.


(** ** The shared result promise of an [async] operation *)






(** ** The deferred path of [flush()] (lines 250-261) *)

Lemma clearTimers_nview (s : state) :
  nview (clearMaxWaitTimer (clearDelayTimer s)) =
  (hasPending s, lastArgs s, lastThis s, execs s, now s, awaiting s,
   inflight s,
   (without (maxWaitTimer s) (without (delayTimer s) (timers s)),
    None, None, nextId s),
   lview s).
Proof.
  open_state s. destruct dT, mT; unfold without, holds; cbn;
    rewrite ?filter_true; reflexivity.
Qed.

(** X12.  [flush()] on a pending call whose operation is declared [async],
    or whose condition answers false or returns a promise: nothing runs yet;
    both timers the closure holds are cleared and one 0 ms timer for
    [tryRun] is armed; Pending State and the Invocation Record stay; the
    caller gets the outstanding promise (created now if needed) for an
    [async] operation and [undefined] otherwise. *)
Theorem flush_defers_to_an_immediate_attempt (cfg : config)
    (c : cond_outcome) (f : fn_outcome) (s : state) :
  reachable cfg s -> pending s = true ->
  (isDeclaredAsyncFunction cfg = true \/
   (condition cfg = true /\ (c = CReturn false \/ c = CPromise))) ->
  let s' := snd (flush cfg c f s) in
  fst (flush cfg c f s) =
    (if isDeclaredAsyncFunction cfg then
       ReturnResultPromise
         (match pendingPromise s with Some p => p | None => nextPromise s end)
     else Return VUndefined) /\
  pending s' = true /\
  lastArgs s' = lastArgs s /\ lastThis s' = lastThis s /\
  execs s' = execs s /\ settled s' = settled s /\
  delayTimer s' = None /\ maxWaitTimer s' = None /\
  timers s' =
    without (maxWaitTimer s) (without (delayTimer s) (timers s))
      ++ [mkTimer (nextId s) (now s + 0) KTryRun] /\
  (isDeclaredAsyncFunction cfg = true ->
     pendingPromise s' =
       Some (match pendingPromise s with
             | Some p => p
             | None => nextPromise s
             end)).
Proof.
  intros Hr Hp Hpath. unfold pending in Hp. cbv zeta.
  pose proof (wf_args _ _ (reachable_wf _ _ Hr) Hp) as Hargs.
  destruct (lastArgs s) as [args |] eqn:Eargs; [| discriminate Hargs].
  set (X := clearMaxWaitTimer (clearDelayTimer s)).
  pose proof (clearTimers_nview s) as N. fold X in N.
  assert (PX : pview X = pview s)
    by (unfold X; now rewrite pview_clearMaxWaitTimer, pview_clearDelayTimer).
  assert (Eflush :
    flush cfg c f s =
    if isDeclaredAsyncFunction cfg then
      (ReturnResultPromise (fst (ensurePendingPromise X)),
       snd (setTimeout KTryRun 0 (snd (ensurePendingPromise X))))
    else (Return VUndefined, snd (setTimeout KTryRun 0 X))).
  { unfold flush. rewrite Hp, Eargs. cbv zeta. fold X.
    destruct (isDeclaredAsyncFunction cfg) eqn:Ea.
    - destruct (ensurePendingPromise X) as [p s0]. reflexivity.
    - destruct Hpath as [Hpath | [Hc Hcc]]; [discriminate Hpath |].
      rewrite Hc. cbn [negb].
      destruct Hcc as [-> | ->]; reflexivity. }
  rewrite Eflush.
  destruct (isDeclaredAsyncFunction cfg) eqn:Ea; cbn [fst snd].
  - pose proof (nview_ensurePendingPromise X) as NE. rewrite N in NE.
    pose proof (pview_ensure_congr _ _ PX) as PE.
    unfold nview, tview, lview in NE.
    injection NE as N1 N2 N3 N4 N5 N6 N7 N8 N9 N10 N11 _ _ _.
    unfold pview in PE. injection PE as P1 _ _ _ P5.
    unfold pview in PX. injection PX as Q1 _ _ Q4 _.
    cbn [setTimeout snd hasPending lastArgs lastThis execs settled
         delayTimer maxWaitTimer timers set_nextId set_timers pending
         pendingPromise].
    rewrite N1, N2, N3, N4, N5, N8, N9, N10, N11, P5, P1.
    assert (Hfst : fst (ensurePendingPromise X) =
                   match pendingPromise s with
                   | Some p => p
                   | None => nextPromise s
                   end).
    { unfold ensurePendingPromise. rewrite Q1, Q4.
      destruct (pendingPromise s); reflexivity. }
    assert (Hpp : pendingPromise (snd (ensurePendingPromise s)) =
                  Some (match pendingPromise s with
                        | Some p => p
                        | None => nextPromise s
                        end)).
    { unfold ensurePendingPromise.
      destruct (pendingPromise s) eqn:E; [exact E | reflexivity]. }
    assert (Hst : settled (snd (ensurePendingPromise s)) = settled s).
    { unfold ensurePendingPromise. destruct (pendingPromise s); reflexivity. }
    rewrite Hfst, Hst, Hpp.
    repeat split; try reflexivity; assumption.
  - unfold nview, tview, lview in N.
    injection N as N1 N2 N3 N4 N5 N6 N7 N8 N9 N10 N11 _ _ _.
    unfold pview in PX. injection PX as _ _ _ _ Q5.
    cbn [setTimeout snd hasPending lastArgs lastThis execs settled
         delayTimer maxWaitTimer timers set_nextId set_timers pending
         pendingPromise].
    rewrite N1, N2, N3, N4, N5, N8, N9, N10, N11, Q5.
    repeat split; try reflexivity; try assumption.
    intros H. discriminate H.
Qed.

(** ** The further properties at concrete inputs *)

Lemma reachable_after_call (cfg : config) (this : value) (args : list value) :
  reachable cfg (snd (debounced cfg this args init)).
Proof.
  exists [Call this args]. cbn [run step].
  destruct (debounced cfg this args init). reflexivity.
Qed.

Lemma call_rearms_delay_timer_witness :
  exists h,
    delayTimer (snd (debounced cfg_plain VNull [VStr "a"] init)) = Some h.
Proof.
  destruct (call_rearms_delay_timer cfg_plain VNull [VStr "a"] init)
    as (h & H & _).
  - exists []. reflexivity.
  - exists h. exact H.
Defined.

Lemma max_wait_armed_witness :
  maxWaitTimer (snd (debounced cfg_maxwait VNull [VStr "a"] init))
  = Some 1%nat.
Proof.
  destruct (max_wait_armed_by_first_call_only cfg_maxwait VNull [VStr "a"]
              init) as [_ H].
  - exists []. reflexivity.
  - pose proof (H eq_refl) as H'. vm_compute in H'. vm_compute.
    destruct H' as [E _]. exact E.
Defined.

Lemma cancel_clears_witness :
  pending (cancel (snd (debounced cfg_plain VNull [VStr "a"] init))) = false.
Proof.
  destruct (cancel_clears_pending_call cfg_plain
              (snd (debounced cfg_plain VNull [VStr "a"] init))) as [H _].
  - apply reachable_after_call.
  - vm_compute. reflexivity.
  - exact H.
Defined.

Lemma key_listener_witness :
  (List.length
     (listeners (snd (debounced cfg_browser VNull [VStr "a"] init))) <= 1)%nat.
Proof.
  destruct (key_listener_held_only_while_pending cfg_browser
              (snd (debounced cfg_browser VNull [VStr "a"] init))) as [H _].
  - apply reachable_after_call.
  - exact H.
Defined.

Lemma pending_iff_delay_timer_witness :
  pending (snd (debounced cfg_plain VNull [VStr "a"] init)) = true <->
  exists h,
    delayTimer (snd (debounced cfg_plain VNull [VStr "a"] init)) = Some h /\
    live h (snd (debounced cfg_plain VNull [VStr "a"] init)) = true.
Proof.
  destruct (pending_iff_delay_timer_live_without_condition cfg_plain
              (snd (debounced cfg_plain VNull [VStr "a"] init)))
    as [H _].
  - reflexivity.
  - reflexivity.
  - apply reachable_after_call.
  - exact H.
Defined.


Lemma operation_runs_when_condition_turns_true_witness :
  exists s2,
    execs s2 = [mkExec 300 VNull (Some [VStr "a"])] /\ hasPending s2 = false.
Proof.
  destruct (operation_runs_when_condition_turns_true cfg_cond init
              (VNull, [VStr "a"]) [] 2 (FReturn VUndefined))
    as (s1 & h & s2 & _ & _ & _ & He & Hp & _).
  - exists []. reflexivity.
  - split; reflexivity.
  - simpl. lia.
  - constructor.
  - reflexivity.
  - reflexivity.
  - exists s2. split; [exact He | exact Hp].
Defined.


Lemma flush_defers_witness :
  fst (flush cfg_async (CReturn true) (FReturn VUndefined)
         (snd (debounced cfg_async VNull [VStr "a"] init)))
  = ReturnResultPromise 0.
Proof.
  destruct (flush_defers_to_an_immediate_attempt cfg_async (CReturn true)
              (FReturn VUndefined)
              (snd (debounced cfg_async VNull [VStr "a"] init)))
    as [H _].
  - apply reachable_after_call.
  - vm_compute. reflexivity.
  - left. reflexivity.
  - vm_compute in H. vm_compute. exact H.
Defined.


(** ** The synchronous path of [flush] (lines 230-248) *)

(** X13.  [flush()] on a pending operation that is not declared [async],
    with no condition or a condition that answers [true] synchronously, in
    any reachable state: the operation runs now with the captured
    arguments, its result (value, thrown error or raw promise) goes straight
    to the caller of [flush], [pending()] is false afterwards, the
    Invocation Record and the key listener are cleared, and the timers that
    stay live are exactly those whose handle the closure did not hold; with
    no condition configured there is none.  When nothing is pending,
    [flush()] returns [undefined] and changes nothing. *)
Theorem flush_runs_synchronous_operation_now (cfg : config)
    (c : cond_outcome) (f : fn_outcome) (s : state) :
  reachable cfg s ->
  isDeclaredAsyncFunction cfg = false ->
  (condition cfg = false \/ c = CReturn true) ->
  (pending s = true ->
     exists args, lastArgs s = Some args /\
       fst (flush cfg c f s) = direct_result f (List.length (execs s)) /\
       let s' := snd (flush cfg c f s) in
       execs s' = execs s ++ [mkExec (now s) (lastThis s) (Some args)] /\
       pending s' = false /\
       delayTimer s' = None /\ maxWaitTimer s' = None /\
       (forall t, In t (timers s') <-> In t (timers s) /\ ~ tracked s t) /\
       (condition cfg = false -> timers s' = []) /\
       removeKeyListener s' = None /\ listeners s' = [] /\
       lastArgs s' = None) /\
  (pending s = false -> flush cfg c f s = (Return VUndefined, s)).
Proof.
  intros Hr Hs Hc. pose proof (reachable_wf _ _ Hr) as W. unfold pending.
  split; [| apply flush_not_pending].
  intros Hp.
  pose proof (wf_args _ _ W Hp) as Ha.
  destruct (lastArgs s) as [args |] eqn:Eargs; [| discriminate Ha].
  exists args. split; [reflexivity |].
  destruct (flush_sync_effect cfg c f s args Hp Eargs Hs Hc)
    as (R & E1 & E2 & E3 & E4 & E5 & E6 & E7 & E8 & _).
  split; [exact R |]. cbv zeta.
  rewrite E1, E2, E3, E4, E5, E6, E7, E8.
  split; [reflexivity |]. split; [reflexivity |]. split; [reflexivity |].
  split; [reflexivity |]. split; [apply in_clearTimers |].
  split; [| split; [reflexivity | split; [| reflexivity]]].
  - intros Hcf. apply not_in_nil. intros t Ht.
    apply in_clearTimers in Ht. destruct Ht as [Hin Hnt].
    apply Hnt. apply (wf_plain _ _ W Hs Hcf). exact Hin.
  - pose proof (wf_registry _ _ W) as Hl. unfold cleanupKeyListener.
    destruct (removeKeyListener s) as [h |]; [| exact Hl].
    cbn. rewrite Hl. cbn. rewrite Nat.eqb_refl. reflexivity.
Qed.

Lemma flush_runs_synchronous_operation_witness :
  fst (flush cfg_plain (CReturn true) (FReturn (VNum 7))
         (snd (debounced cfg_plain VNull [VStr "a"] init)))
    = Return (VNum 7) /\
  execs (snd (flush cfg_plain (CReturn true) (FReturn (VNum 7))
                (snd (debounced cfg_plain VNull [VStr "a"] init))))
    = [mkExec 0 VNull (Some [VStr "a"])] /\
  pending (snd (flush cfg_plain (CReturn true) (FReturn (VNum 7))
                  (snd (debounced cfg_plain VNull [VStr "a"] init))))
    = false /\
  timers (snd (flush cfg_plain (CReturn true) (FReturn (VNum 7))
                 (snd (debounced cfg_plain VNull [VStr "a"] init))))
    = [].
Proof.
  destruct (flush_runs_synchronous_operation_now cfg_plain (CReturn true)
              (FReturn (VNum 7))
              (snd (debounced cfg_plain VNull [VStr "a"] init)))
    as [H _].
  - exists [Call VNull [VStr "a"]]. vm_compute. reflexivity.
  - reflexivity.
  - left. reflexivity.
  - destruct H as (args & Ha & Hr & He & Hp & _ & _ & _ & Ht & _);
      [vm_compute; reflexivity |].
    split; [exact Hr |]. split; [| split; [exact Hp | apply Ht; reflexivity]].
    rewrite He. vm_compute in Ha. injection Ha as <-. reflexivity.
Defined.


(** ** A failing condition (lines 183-189) *)

(** X14.  What an attempt does when the condition throws, or when the
    promise it returned is rejected: the three promise variables are nulled
    and the outstanding result promise, when there is one, is rejected with
    that error; timers, both timer variables, Pending State, the Invocation
    Record and the operation log are as before.  For an operation not
    declared [async] the state does not change at all. *)
Theorem condition_error_rejects_existing_promise_only (cfg : config)
    (err : value) (f : fn_outcome) (s : state) :
  condition cfg = true ->
  let s' := tryRun cfg (CThrow err) f s in
  (forall p, rejectPending s = Some p ->
     settled s' = settled s ++ [(p, Rejected err)]) /\
  (rejectPending s = None -> settled s' = settled s) /\
  pendingPromise s' = None /\ resolvePending s' = None /\
  rejectPending s' = None /\
  timers s' = timers s /\ delayTimer s' = delayTimer s /\
  maxWaitTimer s' = maxWaitTimer s /\
  execs s' = execs s /\ hasPending s' = hasPending s /\
  lastArgs s' = lastArgs s /\
  tryRun_resume cfg (Rejected err) f (set_awaiting (S (awaiting s)) s) = s' /\
  (reachable cfg s -> isDeclaredAsyncFunction cfg = false -> s' = s).
Proof.
  intros Hc. unfold tryRun, tryRun_resume. rewrite Hc.
  repeat split; try (open_state s; destruct rjP; reflexivity).
  - intros p Hp. revert Hp. open_state s. cbn. intros ->. reflexivity.
  - intros Hn. revert Hn. open_state s. cbn. intros ->. reflexivity.
  - intros Hr Hs.
    destruct (wf_sync _ _ (reachable_wf _ _ Hr) Hs) as (Hpp & Hrs & Hrj & _).
    revert Hpp Hrs Hrj. open_state s. cbn. intros -> -> ->. reflexivity.
Qed.

Lemma condition_error_witness :
  settled (tryRun cfg_async_cond (CThrow (VError "boom")) (FReturn VUndefined)
             (snd (debounced cfg_async_cond VNull [VStr "a"] init)))
  = [(0%nat, Rejected (VError "boom"))] /\
  settled (tryRun cfg_cond (CThrow (VError "boom")) (FReturn VUndefined)
             (snd (debounced cfg_cond VNull [VStr "a"] init)))
  = [].
Proof.
  split.
  - destruct (condition_error_rejects_existing_promise_only cfg_async_cond
                (VError "boom") (FReturn VUndefined)
                (snd (debounced cfg_async_cond VNull [VStr "a"] init)) eq_refl)
      as (H & _).
    apply (H 0%nat). vm_compute. reflexivity.
  - destruct (condition_error_rejects_existing_promise_only cfg_cond
                (VError "boom") (FReturn VUndefined)
                (snd (debounced cfg_cond VNull [VStr "a"] init)) eq_refl)
      as (_ & H & _).
    apply H. vm_compute. reflexivity.
Defined.
